(** * Salesforce OAuth 2.0 / PKCE client for Expo: a shallow embedding

    The development follows the TypeScript sources:
    - [errors.ts]   the closed error taxonomy,
    - [storage.ts]  the two token stores ([SecureStorage], [BrowserStorage]),
    - [client.ts]   [SalesforceAuthClient] (signIn, signOut, getUserInfo,
                    isAuthenticated, exchangeCodeForToken),
    - [utils.ts]    the PKCE primitives (this file is not part of the
                    source tree at hand and is modelled from the
                    specification).

    Asynchronous code is modelled sequentially: every [await] is a bind of
    a small state-and-exception monad over a [world] that holds the four
    storage media, the log of issued HTTP requests and the entropy
    counter. *)

From Stdlib Require Import ZArith String Ascii List Bool Lia.
From stdpp Require Import gmap strings list fin_maps.

Local Open Scope Z_scope.
Local Open Scope string_scope.

(* ===================================================================== *)
(** * PKCE primitives *)
(* ===================================================================== *)

(** ** SHA-256 (FIPS 180-4) on 32-bit words held in [Z] *)

Module SHA256.

Definition wrap32 (x : Z) : Z := x mod 2 ^ 32.
Definition add32 (x y : Z) : Z := wrap32 (x + y).

Definition rotr (n x : Z) : Z :=
  Z.lor (Z.shiftr x n) (wrap32 (Z.shiftl x (32 - n))).
Definition shr (n x : Z) : Z := Z.shiftr x n.

Definition Ch (x y z : Z) : Z :=
  Z.lxor (Z.land x y) (Z.land (Z.lnot x) z).
Definition Maj (x y z : Z) : Z :=
  Z.lxor (Z.lxor (Z.land x y) (Z.land x z)) (Z.land y z).
Definition Sigma0 (x : Z) : Z :=
  Z.lxor (Z.lxor (rotr 2 x) (rotr 13 x)) (rotr 22 x).
Definition Sigma1 (x : Z) : Z :=
  Z.lxor (Z.lxor (rotr 6 x) (rotr 11 x)) (rotr 25 x).
Definition sigma0 (x : Z) : Z :=
  Z.lxor (Z.lxor (rotr 7 x) (rotr 18 x)) (shr 3 x).
Definition sigma1 (x : Z) : Z :=
  Z.lxor (Z.lxor (rotr 17 x) (rotr 19 x)) (shr 10 x).

(** The round constants are the first 32 bits of the fractional parts of
    the cube roots of the first 64 primes; the initial hash value, those of
    the square roots of the first 8. *)
Definition primes : list Z :=
  [2; 3; 5; 7; 11; 13; 17; 19; 23; 29; 31; 37; 41; 43; 47; 53;
   59; 61; 67; 71; 73; 79; 83; 89; 97; 101; 103; 107; 109; 113; 127; 131;
   137; 139; 149; 151; 157; 163; 167; 173; 179; 181; 191; 193; 197; 199;
   211; 223; 227; 229; 233; 239; 241; 251; 257; 263; 269; 271; 277; 281;
   283; 293; 307; 311].

(** Integer cube root, one bit at a time from bit [bits - 1] down. *)
Fixpoint cbrt_bits (bits : nat) (n r : Z) : Z :=
  match bits with
  | O => r
  | S b =>
      let r' := r + 2 ^ Z.of_nat b in
      cbrt_bits b n (if Z.leb (r' * r' * r') n then r' else r)
  end.

Definition cbrt_frac32 (p : Z) : Z := wrap32 (cbrt_bits 40 (p * 2 ^ 96) 0).
Definition sqrt_frac32 (p : Z) : Z := wrap32 (Z.sqrt (p * 2 ^ 64)).

Definition K : list Z := map cbrt_frac32 primes.

(** The eight working variables / the chaining value. *)
Record hash := mkHash
  { ha : Z; hb : Z; hc : Z; hd : Z; he : Z; hf : Z; hg : Z; hh : Z }.

Definition H0 : hash :=
  mkHash (sqrt_frac32 2) (sqrt_frac32 3) (sqrt_frac32 5) (sqrt_frac32 7)
         (sqrt_frac32 11) (sqrt_frac32 13) (sqrt_frac32 17) (sqrt_frac32 19).

(** Message padding: a 1 bit, zeros up to 56 mod 64, then the bit length
    as a 64-bit big-endian integer. *)
Definition be_bytes (n : nat) (x : Z) : list Z :=
  map (fun i => Z.land (Z.shiftr x (8 * Z.of_nat i)) 255) (rev (seq 0 n)).

Definition pad (msg : list Z) : list Z :=
  let len := Z.of_nat (length msg) in
  let zeros := Z.to_nat ((55 - len) mod 64) in
  (msg ++ 128 :: repeat 0 zeros ++ be_bytes 8 (8 * len))%list.

Fixpoint chunks {A} (size count : nat) (l : list A) : list (list A) :=
  match count with
  | O => []
  | S count' => firstn size l :: chunks size count' (skipn size l)
  end.

Definition be_word (bs : list Z) : Z :=
  fold_left (fun acc b => Z.lor (Z.shiftl acc 8) b) bs 0.

Definition block_words (block : list Z) : list Z :=
  map be_word (chunks 4 16 block).

(** Message schedule, kept most-recent-first while it is extended. *)
Fixpoint extend (n : nat) (w : list Z) : list Z :=
  match n with
  | O => w
  | S n' =>
      let wt := add32 (add32 (sigma1 (nth 1 w 0)) (nth 6 w 0))
                      (add32 (sigma0 (nth 14 w 0)) (nth 15 w 0)) in
      extend n' (wt :: w)
  end.

Definition schedule (block : list Z) : list Z :=
  rev (extend 48 (rev (block_words block))).

Definition round (s : hash) (kw : Z * Z) : hash :=
  let t1 := add32 (add32 (add32 (hh s) (Sigma1 (he s)))
                         (add32 (Ch (he s) (hf s) (hg s)) (fst kw)))
                  (snd kw) in
  let t2 := add32 (Sigma0 (ha s)) (Maj (ha s) (hb s) (hc s)) in
  mkHash (add32 t1 t2) (ha s) (hb s) (hc s)
         (add32 (hd s) t1) (he s) (hf s) (hg s).

Definition compress (h : hash) (block : list Z) : hash :=
  let s := fold_left round (combine K (schedule block)) h in
  mkHash (add32 (ha h) (ha s)) (add32 (hb h) (hb s))
         (add32 (hc h) (hc s)) (add32 (hd h) (hd s))
         (add32 (he h) (he s)) (add32 (hf h) (hf s))
         (add32 (hg h) (hg s)) (add32 (hh h) (hh s)).

Definition digest_bytes (h : hash) : list Z :=
  (be_bytes 4 (ha h) ++ be_bytes 4 (hb h) ++ be_bytes 4 (hc h) ++
   be_bytes 4 (hd h) ++ be_bytes 4 (he h) ++ be_bytes 4 (hf h) ++
   be_bytes 4 (hg h) ++ be_bytes 4 (hh h))%list.

Definition sha256 (msg : list Z) : list Z :=
  let padded := pad msg in
  digest_bytes
    (fold_left compress (chunks 64 (length padded / 64) padded) H0).

End SHA256.

(** ** base64url without padding (RFC 4648, section 5) *)

Module Base64Url.

Definition alphabet : string :=
  "ABCDEFGHIJKLMNOPQRSTUVWXYZabcdefghijklmnopqrstuvwxyz0123456789-_".

Definition digit (i : Z) : ascii :=
  match String.get (Z.to_nat (i mod 64)) alphabet with
  | Some c => c
  | None => "A"%char
  end.

Fixpoint encode (bs : list Z) : string :=
  match bs with
  | b0 :: b1 :: b2 :: rest =>
      String (digit (Z.shiftr b0 2))
        (String (digit (Z.lor (Z.shiftl (Z.land b0 3) 4) (Z.shiftr b1 4)))
           (String (digit (Z.lor (Z.shiftl (Z.land b1 15) 2) (Z.shiftr b2 6)))
              (String (digit (Z.land b2 63)) (encode rest))))
  | [b0; b1] =>
      String (digit (Z.shiftr b0 2))
        (String (digit (Z.lor (Z.shiftl (Z.land b0 3) 4) (Z.shiftr b1 4)))
           (String (digit (Z.shiftl (Z.land b1 15) 2)) EmptyString))
  | [b0] =>
      String (digit (Z.shiftr b0 2))
        (String (digit (Z.shiftl (Z.land b0 3) 4)) EmptyString)
  | [] => EmptyString
  end.

(** Every character is one of the 64 of the URL-safe alphabet (so none is
    the padding character). *)
Definition url_safe (s : string) : bool :=
  forallb (fun c => existsb (Ascii.eqb c) (list_ascii_of_string alphabet))
          (list_ascii_of_string s).

End Base64Url.

Definition utf8_bytes (s : string) : list Z :=
  map (fun c => Z.of_N (N_of_ascii c)) (list_ascii_of_string s).

(** The PKCE S256 transformation of RFC 7636: base64url, unpadded, of the
    SHA-256 digest of the verifier's bytes. *)
Definition S256 (codeVerifier : string) : string :=
  Base64Url.encode (SHA256.sha256 (utf8_bytes codeVerifier)).
Global Arguments S256 : simpl never.

(* ===================================================================== *)
(** * errors.ts *)
(* ===================================================================== *)

Inductive SalesforceAuthErrorCode :=
| auth_session_failed
| invalid_state
| not_authenticated
| token_exchange_failed
| userinfo_request_failed.

Definition SalesforceAuthErrorCodes (code : SalesforceAuthErrorCode) : string :=
  match code with
  | auth_session_failed => "Authentication session failed"
  | invalid_state => "Invalid state parameter"
  | not_authenticated => "User is not authenticated"
  | token_exchange_failed => "Failed to exchange code for token"
  | userinfo_request_failed => "Failed to fetch user info"
  end.

(** What a rejected promise carries: a [SalesforceAuthError] with its code,
    or the untyped rejection of [fetch] itself (transport failure), which
    the client does not catch. *)
Inductive exn :=
| SalesforceAuthError (code : SalesforceAuthErrorCode)
| FetchRejected.

(* ===================================================================== *)
(** * The world outside the client *)
(* ===================================================================== *)

Inductive http_method := GET | POST.

(** A call of [fetch(url, init)].  The form body is kept as the ordered
    parameter list handed to [URLSearchParams]; its percent-encoded
    serialisation ([params.toString()]) is not modelled. *)
Record request := mkRequest
  { req_url : string;
    req_method : http_method;
    req_headers : list (string * string);
    req_body : list (string * string) }.

(** The outcome of one [fetch]: the promise rejects, or it resolves with a
    response whose [ok] flag and parsed JSON body the client reads. *)
Inductive fetch_result (A : Type) :=
| Rejected
| Response (ok : bool) (json : A).
Arguments Rejected {A}.
Arguments Response {A} ok json.

(** The fields of the token endpoint's JSON that the client consumes. *)
Record TokenResponse := mkTokenResponse
  { access_token : string;
    refresh_token : option string }.

Record UserInfo := mkUserInfo
  { name : string;
    email : string;
    picture : string;
    preferred_username : string;
    profile : string }.

(** A parsed redirect URL: [new URL(url).searchParams]. *)
Definition URLSearchParams := list (string * string).

Fixpoint searchParams_get (key : string) (params : URLSearchParams)
  : option string :=
  match params with
  | [] => None
  | (k, v) :: rest =>
      if String.eqb k key then Some v else searchParams_get key rest
  end.

(** [WebBrowser.WebBrowserAuthSessionResult]. *)
Inductive AuthSessionResult :=
| success (url : URLSearchParams)
| cancel
| dismiss
| opened
| locked.

(** The arguments of [WebBrowser.openAuthSessionAsync]. *)
Record AuthSessionRequest := mkAuthSessionRequest
  { auth_endpoint : string;
    auth_params : URLSearchParams;
    auth_redirectUri : string;
    auth_preferEphemeralSession : bool }.

(** The collaborators the client calls but does not own. *)
Record environment := mkEnvironment
  { makeRedirectUri : string -> string;
    openAuthSessionAsync : AuthSessionRequest -> AuthSessionResult;
    fetch_token : request -> fetch_result TokenResponse;
    fetch_revoke : request -> fetch_result unit;
    fetch_userinfo : request -> fetch_result UserInfo }.

(** The library functions the stores rely on.  [randomString i n] is the
    [i]-th draw of the random source for a requested length [n];
    [AES_encrypt salt message passphrase] and [AES_decrypt ciphertext
    passphrase] stand for [CryptoES.AES.encrypt(..).toString()] and
    [CryptoES.AES.decrypt(..).toString(Utf8)]. *)
Class Libraries := mkLibraries
  { randomString : nat -> nat -> string;
    AES_encrypt : nat -> string -> string -> string;
    AES_decrypt : string -> string -> string }.

(** What is assumed of them: decryption inverts encryption under the same
    passphrase, a ciphertext is never the empty string (it carries the
    salt header), and a random string of positive length is not empty. *)
Class LibrariesOk (L : Libraries) : Prop := mkLibrariesOk
  { decrypt_encrypt :
      forall salt message passphrase,
        AES_decrypt (AES_encrypt salt message passphrase) passphrase = message;
    encrypt_nonempty :
      forall salt message passphrase,
        AES_encrypt salt message passphrase <> "";
    random_nonempty :
      forall i n, (0 < n)%nat -> randomString i n <> "" }.

(** The mutable state: the four storage media, the number of random draws
    made so far, the authorization sessions opened in the browser and the
    HTTP requests issued so far (oldest first), and the client's
    [authSessionResult] field. *)
Record world := mkWorld
  { AsyncStorage : gmap string string;
    SecureStore : gmap string string;
    localStorage : gmap string string;
    sessionStorage : gmap string string;
    entropy : nat;
    sessions : list AuthSessionRequest;
    network : list request;
    authSessionResult : option AuthSessionResult }.

Definition empty_world : world :=
  mkWorld ∅ ∅ ∅ ∅ 0 [] [] None.

Definition set_AsyncStorage (x : gmap string string) (w : world) : world :=
  mkWorld x (SecureStore w) (localStorage w) (sessionStorage w)
          (entropy w) (sessions w) (network w) (authSessionResult w).
Definition set_SecureStore (x : gmap string string) (w : world) : world :=
  mkWorld (AsyncStorage w) x (localStorage w) (sessionStorage w)
          (entropy w) (sessions w) (network w) (authSessionResult w).
Definition set_localStorage (x : gmap string string) (w : world) : world :=
  mkWorld (AsyncStorage w) (SecureStore w) x (sessionStorage w)
          (entropy w) (sessions w) (network w) (authSessionResult w).
Definition set_sessionStorage (x : gmap string string) (w : world) : world :=
  mkWorld (AsyncStorage w) (SecureStore w) (localStorage w) x
          (entropy w) (sessions w) (network w) (authSessionResult w).
Definition set_entropy (x : nat) (w : world) : world :=
  mkWorld (AsyncStorage w) (SecureStore w) (localStorage w) (sessionStorage w)
          x (sessions w) (network w) (authSessionResult w).
Definition set_sessions (x : list AuthSessionRequest) (w : world) : world :=
  mkWorld (AsyncStorage w) (SecureStore w) (localStorage w) (sessionStorage w)
          (entropy w) x (network w) (authSessionResult w).
Definition set_network (x : list request) (w : world) : world :=
  mkWorld (AsyncStorage w) (SecureStore w) (localStorage w) (sessionStorage w)
          (entropy w) (sessions w) x (authSessionResult w).
Definition set_authSessionResult (x : option AuthSessionResult) (w : world)
  : world :=
  mkWorld (AsyncStorage w) (SecureStore w) (localStorage w) (sessionStorage w)
          (entropy w) (sessions w) (network w) x.

(** ** Promises as a state-and-exception monad *)

Inductive completion (A : Type) :=
| Return (a : A)
| Throw (e : exn).
Arguments Return {A} a.
Arguments Throw {A} e.

Definition async (A : Type) : Type := world -> completion A * world.

Definition ret {A} (a : A) : async A := fun w => (Return a, w).
Definition throw {A} (e : exn) : async A := fun w => (Throw e, w).
Definition bind {A B} (m : async A) (k : A -> async B) : async B :=
  fun w =>
    match m w with
    | (Return a, w') => k a w'
    | (Throw e, w') => (Throw e, w')
    end.
Definition gets {A} (f : world -> A) : async A := fun w => (Return (f w), w).
Definition modify (f : world -> world) : async unit :=
  fun w => (Return tt, f w).

Notation "'await' x ← m ; k" := (bind m (fun x => k))
  (at level 10, x name, m at level 100, k at level 200,
   format "'[v' 'await'  x  ←  m ; '/' k ']'").

(** The value and the final world of a run. *)
Definition result {A} (m : async A) (w : world) : completion A := fst (m w).
Definition after {A} (m : async A) (w : world) : world := snd (m w).

(** JavaScript truthiness of a string: only the empty string is falsy. *)
Definition truthy (s : string) : bool := negb (String.eqb s "").

(** Modelled from the spec: [generateRandomString] of [utils.ts] (not in
    the source tree): [randomString(length = 43)], a fresh random string
    on every call. *)
Definition generateRandomString `{L : Libraries} (length : option nat)
  : async string :=
  fun w =>
    (Return (randomString (entropy w) (default 43%nat length)),
     set_entropy (S (entropy w)) w).

(** Modelled from the spec: [generateCodeChallenge] of [utils.ts], which
    [client.ts] imports and awaits but which is not in the source tree.
    The specification gives it as: the SHA-256 digest of the verifier,
    returned base64url-encoded with no padding (the PKCE S256 method). *)
Definition generateCodeChallenge (codeVerifier : string) : async string :=
  ret (S256 codeVerifier).

(** [!x] for a [Nullable<string>]: [null] and the empty string are falsy. *)
Definition js_not (x : option string) : bool :=
  match x with
  | Some s => negb (truthy s)
  | None => true
  end.

(** [a === b] between a [Nullable<string>] and a string. *)
Definition strict_eq (a : option string) (b : string) : bool :=
  match a with
  | Some s => String.eqb s b
  | None => false
  end.

(** [a ?? b]. *)
Definition nullish {A} (a b : option A) : option A :=
  match a with
  | Some _ => a
  | None => b
  end.

(* ===================================================================== *)
(** * storage.ts *)
(* ===================================================================== *)

Inductive PersistKey := IdToken | RefreshToken | AccessToken | SignInSession.

Definition PersistKey_value (k : PersistKey) : string :=
  match k with
  | IdToken => "idToken"
  | RefreshToken => "refreshToken"
  | AccessToken => "accessToken"
  | SignInSession => "signInSession"
  end.

(** The four media, each with the [getItem]/[setItem]/[removeItem] of its
    library. *)
Module Media.

Definition AsyncStorage_getItem (k : string) : async (option string) :=
  gets (fun w => AsyncStorage w !! k).
Definition AsyncStorage_setItem (k v : string) : async unit :=
  modify (fun w => set_AsyncStorage (<[k := v]> (AsyncStorage w)) w).
Definition AsyncStorage_removeItem (k : string) : async unit :=
  modify (fun w => set_AsyncStorage (delete k (AsyncStorage w)) w).

Definition SecureStore_getItemAsync (k : string) : async (option string) :=
  gets (fun w => SecureStore w !! k).
Definition SecureStore_setItemAsync (k v : string) : async unit :=
  modify (fun w => set_SecureStore (<[k := v]> (SecureStore w)) w).
Definition SecureStore_deleteItemAsync (k : string) : async unit :=
  modify (fun w => set_SecureStore (delete k (SecureStore w)) w).

Definition localStorage_getItem (k : string) : async (option string) :=
  gets (fun w => localStorage w !! k).
Definition localStorage_setItem (k v : string) : async unit :=
  modify (fun w => set_localStorage (<[k := v]> (localStorage w)) w).
Definition localStorage_removeItem (k : string) : async unit :=
  modify (fun w => set_localStorage (delete k (localStorage w)) w).

Definition sessionStorage_getItem (k : string) : async (option string) :=
  gets (fun w => sessionStorage w !! k).
Definition sessionStorage_setItem (k v : string) : async unit :=
  modify (fun w => set_sessionStorage (<[k := v]> (sessionStorage w)) w).
Definition sessionStorage_removeItem (k : string) : async unit :=
  modify (fun w => set_sessionStorage (delete k (sessionStorage w)) w).

(** [CryptoES.AES.encrypt(value, key).toString()]: salted, so it draws
    from the random source. *)
Definition CryptoES_AES_encrypt `{L : Libraries} (value key : string)
  : async string :=
  fun w =>
    (Return (AES_encrypt (entropy w) value key),
     set_entropy (S (entropy w)) w).

End Media.

Module SecureStorage.
Import Media.

Section Methods.
Context `{L : Libraries}.
Variable id : string.

Definition getStorageKey (key : string) : string :=
  id +:+ "." +:+ key.

Definition encrypt (key value : string) : async string :=
  await encryptionKey ← generateRandomString None;
  await encrypted ← CryptoES_AES_encrypt value encryptionKey;
  await _ ← SecureStore_setItemAsync key encryptionKey;
  ret encrypted.

Definition decrypt (key value : string) : async (option string) :=
  await encryptionKey ← SecureStore_getItemAsync key;
  if js_not encryptionKey then ret None
  else ret (Some (AES_decrypt value (default "" encryptionKey))).

Definition getItem (key : string) : async (option string) :=
  let storageKey := getStorageKey key in
  await encrypted ← AsyncStorage_getItem storageKey;
  if js_not encrypted then ret None
  else decrypt storageKey (default "" encrypted).

Definition setItem (key value : string) : async unit :=
  let storageKey := getStorageKey key in
  await encrypted ← encrypt storageKey value;
  AsyncStorage_setItem storageKey encrypted.

(** [Promise.all] of the two deletions; they touch different media. *)
Definition removeItem (key : string) : async unit :=
  let storageKey := getStorageKey key in
  await _ ← AsyncStorage_removeItem storageKey;
  SecureStore_deleteItemAsync storageKey.

End Methods.
End SecureStorage.

Definition keyPrefix : string := "salesforce_auth".

Module BrowserStorage.
Import Media.

Section Methods.
Variable appId : string.

Definition getKey (item : option string) : string :=
  match item with
  | None => keyPrefix +:+ ":" +:+ appId
  | Some item => keyPrefix +:+ ":" +:+ appId +:+ ":" +:+ item
  end.

Definition getItem (key : string) : async (option string) :=
  if String.eqb key "signInSession" then
    await current ← sessionStorage_getItem (getKey (Some key));
    await legacy ← sessionStorage_getItem (getKey None);
    ret (nullish current legacy)
  else localStorage_getItem (getKey (Some key)).

Definition setItem (key value : string) : async unit :=
  if String.eqb key "signInSession" then
    sessionStorage_setItem (getKey (Some key)) value
  else localStorage_setItem (getKey (Some key)) value.

Definition removeItem (key : string) : async unit :=
  if String.eqb key "signInSession" then
    sessionStorage_removeItem (getKey (Some key))
  else localStorage_removeItem (getKey (Some key)).

End Methods.
End BrowserStorage.

(** The [Storage<Keys>] capability, with its two implementations. *)
Inductive Storage :=
| NewSecureStorage (id : string)
| NewBrowserStorage (appId : string).

Section StorageInterface.
Context `{L : Libraries}.

Definition getItem (s : Storage) (key : string) : async (option string) :=
  match s with
  | NewSecureStorage id => SecureStorage.getItem id key
  | NewBrowserStorage appId => BrowserStorage.getItem appId key
  end.

Definition setItem (s : Storage) (key value : string) : async unit :=
  match s with
  | NewSecureStorage id => SecureStorage.setItem id key value
  | NewBrowserStorage appId => BrowserStorage.setItem appId key value
  end.

Definition removeItem (s : Storage) (key : string) : async unit :=
  match s with
  | NewSecureStorage id => SecureStorage.removeItem id key
  | NewBrowserStorage appId => BrowserStorage.removeItem appId key
  end.

End StorageInterface.

(** The value [getItem] resolves with in a world. *)
Definition stored `{L : Libraries} (s : Storage) (key : string) (w : world)
  : option string :=
  match result (getItem s key) w with
  | Return v => v
  | Throw _ => None
  end.

(** What the media hold under a store's key: the ciphertext and its
    encryption key for the secure store, the plain value for the browser
    store. *)
Definition entries (s : Storage) (key : string) (w : world)
  : list (option string) :=
  match s with
  | NewSecureStorage id =>
      [AsyncStorage w !! SecureStorage.getStorageKey id key;
       SecureStore w !! SecureStorage.getStorageKey id key]
  | NewBrowserStorage appId =>
      if String.eqb key "signInSession"
      then [sessionStorage w !! BrowserStorage.getKey appId (Some key)]
      else [localStorage w !! BrowserStorage.getKey appId (Some key)]
  end.

(** The browser store's session medium holds nothing under the old,
    un-suffixed key [salesforce_auth:<appId>] that [getItem] falls back to.
    The secure store has no such fallback. *)
Definition legacy_free (s : Storage) (w : world) : Prop :=
  match s with
  | NewBrowserStorage appId =>
      sessionStorage w !! BrowserStorage.getKey appId None = None
  | NewSecureStorage _ => True
  end.

(** Histories of store calls, and the key/value map they denote. *)
Inductive store_op :=
| SetItem (key value : string)
| RemoveItem (key : string)
| GetItem (key : string).

Definition run_op `{L : Libraries} (s : Storage) (op : store_op) : async unit :=
  match op with
  | SetItem key value => setItem s key value
  | RemoveItem key => removeItem s key
  | GetItem key => await _ ← getItem s key; ret tt
  end.

Fixpoint run_ops `{L : Libraries} (s : Storage) (ops : list store_op)
  : async unit :=
  match ops with
  | [] => ret tt
  | op :: rest => await _ ← run_op s op; run_ops s rest
  end.

Fixpoint contents (ops : list store_op) (m : gmap string string)
  : gmap string string :=
  match ops with
  | [] => m
  | SetItem key value :: rest => contents rest (<[key := value]> m)
  | RemoveItem key :: rest => contents rest (delete key m)
  | GetItem _ :: rest => contents rest m
  end.

(* ===================================================================== *)
(** * client.ts *)
(* ===================================================================== *)

Inductive Prompt :=
| Prompt_None
| Prompt_Login
| Prompt_Consent
| Prompt_SelectAccount.

(** [SalesforceConfig & GeneralAuthConfig]; optional members are options. *)
Record Config := mkConfig
  { clientId : string;
    clientSecret : option string;
    redirectUri : option string;
    sandbox : option bool;
    prompt : option (list Prompt);
    perferEphemeralSession : option bool }.

Record SalesforceAuthClient := mkSalesforceAuthClient
  { config : Config;
    storage : Storage;
    authEndpoint : string;
    tokenEndpoint : string;
    revocationEndpoint : string;
    userInfoEndpoint : string;
    client_prompt : list Prompt;
    preferEphemeralSession : bool }.

(** The constructor; [Platform_OS] is [Platform.OS] of react-native. *)
Definition new_SalesforceAuthClient (Platform_OS : string) (config : Config)
  : SalesforceAuthClient :=
  let domain :=
    if default false (sandbox config)
    then "test.salesforce.com" else "login.salesforce.com" in
  mkSalesforceAuthClient
    config
    (if String.eqb Platform_OS "web"
     then NewBrowserStorage (clientId config)
     else NewSecureStorage ("salesforce." +:+ clientId config))
    ("https://" +:+ domain +:+ "/services/oauth2/authorize")
    ("https://" +:+ domain +:+ "/services/oauth2/token")
    ("https://" +:+ domain +:+ "/services/oauth2/revoke")
    ("https://" +:+ domain +:+ "/services/oauth2/userinfo")
    (default [Prompt_Login; Prompt_Consent] (prompt config))
    (default true (perferEphemeralSession config)).

(** [...(this.config.clientSecret && { client_secret: ... })] *)
Definition client_secret_param (cfg : Config) : list (string * string) :=
  match clientSecret cfg with
  | Some secret => if truthy secret then [("client_secret", secret)] else []
  | None => []
  end.

Definition form_headers : list (string * string) :=
  [("Content-Type", "application/x-www-form-urlencoded")].

(** One [await fetch(..)]: the request is issued (and logged); a rejected
    promise propagates as an exception. *)
Definition fetch {A} (endpoint : request -> fetch_result A) (req : request)
  : async (bool * A) :=
  fun w =>
    let w' := set_network (network w ++ [req]) w in
    match endpoint req with
    | Rejected => (Throw FetchRejected, w')
    | Response ok json => (Return (ok, json), w')
    end.

Definition WebBrowser_openAuthSessionAsync (env : environment)
    (req : AuthSessionRequest) : async AuthSessionResult :=
  fun w =>
    (Return (openAuthSessionAsync env req),
     set_sessions (sessions w ++ [req]) w).

Section Client.
Context `{L : Libraries}.
Variable env : environment.
Variable this : SalesforceAuthClient.

Definition token_request (code codeVerifier redirectUri : string) : request :=
  mkRequest (tokenEndpoint this) POST form_headers
    ([("client_id", clientId (config this));
      ("grant_type", "authorization_code");
      ("code", code);
      ("code_verifier", codeVerifier);
      ("redirect_uri", redirectUri)] ++ client_secret_param (config this)).

Definition exchangeCodeForToken (code codeVerifier redirectUri : string)
  : async unit :=
  await response ← fetch (fetch_token env)
                     (token_request code codeVerifier redirectUri);
  if negb (fst response) then
    throw (SalesforceAuthError token_exchange_failed)
  else
    let data := snd response in
    await _ ← setItem (storage this) "accessToken" (access_token data);
    match refresh_token data with
    | Some refresh =>
        if truthy refresh
        then setItem (storage this) "refreshToken" refresh
        else ret tt
    | None => ret tt
    end.

Definition authorize_params (redirect state codeChallenge : string)
  : URLSearchParams :=
  [("client_id", clientId (config this));
   ("response_type", "code");
   ("redirect_uri", redirect);
   ("state", state);
   ("code_challenge", codeChallenge);
   ("code_challenge_method", "S256")].

Definition signIn : async unit :=
  await codeVerifier ← generateRandomString None;
  await codeChallenge ← generateCodeChallenge codeVerifier;
  await state ← generateRandomString (Some 16%nat);
  let redirect :=
    default (makeRedirectUri env "myapp") (redirectUri (config this)) in
  let params := authorize_params redirect state codeChallenge in
  await session ← WebBrowser_openAuthSessionAsync env
                    (mkAuthSessionRequest (authEndpoint this) params redirect
                                          (preferEphemeralSession this));
  await _ ← modify (set_authSessionResult (Some session));
  match session with
  | success url =>
      let code := searchParams_get "code" url in
      let returnedState := searchParams_get "state" url in
      if js_not code || negb (strict_eq returnedState state) then
        throw (SalesforceAuthError invalid_state)
      else
        exchangeCodeForToken (default "" code) codeVerifier redirect
  | _ => throw (SalesforceAuthError auth_session_failed)
  end.

Definition revoke_request (token : string) : request :=
  mkRequest (revocationEndpoint this) POST form_headers
    ([("token", token); ("client_id", clientId (config this))]
       ++ client_secret_param (config this)).

Definition signOut : async unit :=
  await token ← getItem (storage this) "accessToken";
  if js_not token then ret tt
  else
    await _ ← fetch (fetch_revoke env) (revoke_request (default "" token));
    await _ ← removeItem (storage this) "accessToken";
    removeItem (storage this) "refreshToken".

Definition userinfo_request (token : string) : request :=
  mkRequest (userInfoEndpoint this) GET
    [("Authorization", "Bearer " +:+ token)] [].

Definition getUserInfo : async UserInfo :=
  await token ← getItem (storage this) "accessToken";
  if js_not token then throw (SalesforceAuthError not_authenticated)
  else
    await response ← fetch (fetch_userinfo env)
                       (userinfo_request (default "" token));
    if negb (fst response) then
      throw (SalesforceAuthError userinfo_request_failed)
    else ret (snd response).

Definition isAuthenticated : async bool :=
  await token ← getItem (storage this) "accessToken";
  ret (negb (js_not token)).

End Client.

(** What a [signIn] that starts in world [w] generates and sends: the
    code verifier and the state nonce it draws, the redirect URI it
    resolves, the authorization session it opens, and the world in which
    it resumes once the browser has returned. *)
Definition signIn_codeVerifier `{L : Libraries} (w : world) : string :=
  randomString (entropy w) 43.

Definition signIn_state `{L : Libraries} (w : world) : string :=
  randomString (S (entropy w)) 16.

Definition signIn_redirectUri (env : environment) (this : SalesforceAuthClient)
  : string :=
  default (makeRedirectUri env "myapp") (redirectUri (config this)).

Definition signIn_request `{L : Libraries} (env : environment)
    (this : SalesforceAuthClient) (w : world) : AuthSessionRequest :=
  mkAuthSessionRequest
    (authEndpoint this)
    (authorize_params this (signIn_redirectUri env this) (signIn_state w)
                      (S256 (signIn_codeVerifier w)))
    (signIn_redirectUri env this)
    (preferEphemeralSession this).

Definition signIn_resumed `{L : Libraries} (env : environment)
    (this : SalesforceAuthClient) (w : world) : world :=
  set_authSessionResult
    (Some (openAuthSessionAsync env (signIn_request env this w)))
    (set_sessions (sessions w ++ [signIn_request env this w])
                  (set_entropy (S (S (entropy w))) w)).

(** ** Reachable worlds

    The worlds a client can be in: it starts on empty media and each step
    is one public operation, run against an arbitrary environment. *)
Inductive reachable `{L : Libraries} (this : SalesforceAuthClient)
  : world -> Prop :=
| reach_init : reachable this empty_world
| reach_signIn env w :
    reachable this w -> reachable this (after (signIn env this) w)
| reach_signOut env w :
    reachable this w -> reachable this (after (signOut env this) w)
| reach_getUserInfo env w :
    reachable this w -> reachable this (after (getUserInfo env this) w)
| reach_isAuthenticated w :
    reachable this w -> reachable this (after (isAuthenticated this) w).

(** The token store as such: the four media, nothing else of the world. *)
Definition same_store (w1 w2 : world) : Prop :=
  AsyncStorage w1 = AsyncStorage w2 /\
  SecureStore w1 = SecureStore w2 /\
  localStorage w1 = localStorage w2 /\
  sessionStorage w1 = sessionStorage w2.

(* ===================================================================== *)
(** * Sample instances, used to exercise the theorems on concrete runs *)
(* ===================================================================== *)

Module Sample.

Definition xor_ascii (a b : ascii) : ascii :=
  match a, b with
  | Ascii a0 a1 a2 a3 a4 a5 a6 a7, Ascii b0 b1 b2 b3 b4 b5 b6 b7 =>
      Ascii (xorb a0 b0) (xorb a1 b1) (xorb a2 b2) (xorb a3 b3)
            (xorb a4 b4) (xorb a5 b5) (xorb a6 b6) (xorb a7 b7)
  end.

Fixpoint map_string (f : ascii -> ascii) (s : string) : string :=
  match s with
  | EmptyString => EmptyString
  | String c rest => String (f c) (map_string f rest)
  end.

Definition key_char (k : string) : ascii :=
  match k with
  | String c _ => c
  | EmptyString => Ascii.zero
  end.

Definition tail (s : string) : string :=
  match s with
  | String _ rest => rest
  | EmptyString => EmptyString
  end.

(** A toy stand-in for the libraries: draw [i] of length [n] repeats one
    letter [n] times; the cipher prefixes a salt letter and xors every
    character with the first character of the passphrase. *)
Definition libs : Libraries :=
  {| randomString i n :=
       string_of_list_ascii (repeat (ascii_of_nat (97 + i mod 26)) n);
     AES_encrypt salt message passphrase :=
       String (ascii_of_nat (65 + salt mod 26))
              (map_string (xor_ascii (key_char passphrase)) message);
     AES_decrypt ciphertext passphrase :=
       map_string (xor_ascii (key_char passphrase)) (tail ciphertext) |}.

Definition cfg : Config :=
  mkConfig "C1" None (Some "app://cb") (Some false) None None.

Definition web_client : SalesforceAuthClient :=
  new_SalesforceAuthClient "web" cfg.
Definition native_client : SalesforceAuthClient :=
  new_SalesforceAuthClient "ios" cfg.

Definition somebody : UserInfo :=
  mkUserInfo "Ada" "ada@example.org" "https://p/ada.png" "ada" "https://p/ada".

(** The issuer echoes the [state] it was sent and hands out [code]. *)
Definition echo_browser (code : string) (req : AuthSessionRequest)
  : AuthSessionResult :=
  success [("code", code);
           ("state", default "" (searchParams_get "state" (auth_params req)))].

Definition env_with (browser : AuthSessionRequest -> AuthSessionResult)
    (token : fetch_result TokenResponse) : environment :=
  mkEnvironment (fun scheme => scheme +:+ "://")
                browser
                (fun _ => token)
                (fun _ => Response true tt)
                (fun _ => Response true somebody).

(** Happy path: code [ABC123], tokens [AT1] and [RT1]. *)
Definition happy : environment :=
  env_with (echo_browser "ABC123")
           (Response true (mkTokenResponse "AT1" (Some "RT1"))).

(** Re-authentication whose response omits the refresh token. *)
Definition reauth : environment :=
  env_with (echo_browser "DEF456")
           (Response true (mkTokenResponse "AT2" None)).

(** The redirect carries an empty [code] parameter. *)
Definition empty_code : environment :=
  env_with (echo_browser "")
           (Response true (mkTokenResponse "AT1" (Some "RT1"))).

(** The redirect carries a foreign [state]. *)
Definition tampered : environment :=
  env_with (fun _ => success [("code", "ABC123"); ("state", "WRONG")])
           (Response true (mkTokenResponse "AT1" (Some "RT1"))).

Definition cancelled : environment :=
  env_with (fun _ => cancel)
           (Response true (mkTokenResponse "AT1" (Some "RT1"))).

Definition rejected : environment :=
  env_with (echo_browser "ABC123")
           (Response false (mkTokenResponse "" None)).

(** The token endpoint answers 200 with empty token strings. *)
Definition empty_tokens : environment :=
  env_with (echo_browser "ABC123")
           (Response true (mkTokenResponse "" (Some "RT1"))).
Definition empty_refresh : environment :=
  env_with (echo_browser "ABC123")
           (Response true (mkTokenResponse "AT1" (Some ""))).

(** A browser session store that still holds an entry under the old,
    un-suffixed key. *)
Definition legacy_world : world :=
  set_sessionStorage {[ "salesforce_auth:C1" := "old-session" ]} empty_world.

(** After a first sign-in on the happy path. *)
Definition signed_in (this : SalesforceAuthClient) : world :=
  after (signIn (L := libs) happy this) empty_world.

(** After a sign-in whose token response carried an empty access token. *)
Definition signed_in_empty (this : SalesforceAuthClient) : world :=
  after (signIn (L := libs) empty_tokens this) empty_world.

(** The secure-element entry of a stored access token is deleted behind
    the store's back; the ciphertext stays. *)
Definition key_lost_world : world :=
  let w := after (SecureStorage.setItem (L := libs) "salesforce.C1"
                    "accessToken" "AT1") empty_world in
  set_SecureStore
    (delete (SecureStorage.getStorageKey "salesforce.C1" "accessToken")
            (SecureStore w)) w.

End Sample.



(* ===================================================================== *)
(** * Notions used by the further properties of the stores and the client *)
(* ===================================================================== *)

(** The character [c] occurs in [s]. *)
Fixpoint occurs (c : ascii) (s : string) : bool :=
  match s with
  | EmptyString => false
  | String a rest => Ascii.eqb a c || occurs c rest
  end.

(** Two browser stores clash when the second one's old un-suffixed key is
    the first one's key for [signInSession]. *)
Definition legacy_clash (s1 s2 : Storage) : Prop :=
  match s1, s2 with
  | NewBrowserStorage appId1, NewBrowserStorage appId2 =>
      appId2 = appId1 +:+ ":signInSession"
  | _, _ => False
  end.

(** A history with the written values blanked out. *)
Definition erase_value (op : store_op) : store_op :=
  match op with
  | SetItem key _ => SetItem key EmptyString
  | other => other
  end.

(** The host a configuration selects. *)
Definition oauth_host (cfg : Config) : string :=
  if default false (sandbox cfg)
  then "test.salesforce.com" else "login.salesforce.com".

(** How a client operation may change the store: not at all, or by
    writing or removing the [accessToken] and [refreshToken] items. *)
Inductive token_writes `{L : Libraries} (s : Storage) : world -> world -> Prop :=
| tw_refl w :
    token_writes s w w
| tw_same w w' w'' :
    token_writes s w w' -> same_store w' w'' -> token_writes s w w''
| tw_setItem key value w w' :
    key = "accessToken" \/ key = "refreshToken" ->
    token_writes s w w' ->
    token_writes s w (after (setItem s key value) w')
| tw_removeItem key w w' :
    key = "accessToken" \/ key = "refreshToken" ->
    token_writes s w w' ->
    token_writes s w (after (removeItem s key) w').


(** The requests a client sends. *)
Definition client_request (this : SalesforceAuthClient) (r : request) : Prop :=
  (exists code codeVerifier redirect,
      r = token_request this code codeVerifier redirect) \/
  (exists token, r = revoke_request this token) \/
  (exists token, r = userinfo_request this token).


(* ===================================================================== *)
(** * provider.tsx and hooks.ts: the state handed to the UI *)
(* ===================================================================== *)

(** The two [useState] cells of [SalesforceAuthProvider]. *)
Record ui := mkUi
  { ui_isAuthenticated : bool;
    ui_isInitialized : bool }.

(** [useState(false)], twice. *)
Definition ui_initial : ui := mkUi false false.

(** Promises that also see the UI state. *)
Definition ui_async (A : Type) : Type :=
  world * ui -> completion A * (world * ui).

Definition ui_bind {A B} (m : ui_async A) (k : A -> ui_async B) : ui_async B :=
  fun st =>
    match m st with
    | (Return a, st') => k a st'
    | (Throw e, st') => (Throw e, st')
    end.

(** A call into the client. *)
Definition ui_lift {A} (m : async A) : ui_async A :=
  fun st =>
    match m (fst st) with
    | (r, w') => (r, (w', snd st))
    end.

Definition setIsAuthenticated (value : bool) : ui_async unit :=
  fun st => (Return tt, (fst st, mkUi value (ui_isInitialized (snd st)))).


Module SalesforceAuthProvider.


End SalesforceAuthProvider.

Module useSalesforceAuth.

Section Callbacks.
Context `{L : Libraries}.
Variable env : environment.
Variable client : SalesforceAuthClient.

Definition signIn : ui_async unit :=
  ui_bind (ui_lift (signIn env client)) (fun _ =>
  setIsAuthenticated true).

Definition signOut : ui_async unit :=
  ui_bind (ui_lift (signOut env client)) (fun _ =>
  setIsAuthenticated false).

Definition getUserInfo : ui_async UserInfo :=
  ui_lift (getUserInfo env client).

End Callbacks.
End useSalesforceAuth.




(** The token endpoint of [env] never answers a success with an empty
    access token. *)
Definition issues_tokens (env : environment) : Prop :=
  forall r data,
    fetch_token env r = Response true data -> access_token data <> "".


(* ===================================================================== *)
(** * rest.ts *)
(* ===================================================================== *)

Module SalesforceRestClient.

Record SalesforceRestConfig := mkSalesforceRestConfig
  { apiVersion : option string;
    instanceUrl : string }.

Inductive rest_method := M_GET | M_POST | M_PATCH | M_DELETE.

(** A call of [fetch(url, { method, headers, body })]; without [method] it
    is a GET, without [body] there is none. *)
Record rest_request := mkRestRequest
  { rest_url : string;
    rest_verb : rest_method;
    rest_headers : list (string * string);
    rest_body : option string }.

Record rest_response (J : Type) := mkRestResponse
  { rest_ok : bool;
    rest_statusText : string;
    rest_json : J }.
Arguments mkRestResponse {J} _ _ _.
Arguments rest_ok {J} _.
Arguments rest_statusText {J} _.
Arguments rest_json {J} _.

(** What a REST call can throw: a plain [Error] with a message, or what the
    token getter and [fetch] throw. *)
Inductive rest_exn :=
| Error (message : string)
| Propagated (e : exn).

Inductive rest_completion (A : Type) :=
| Resolved (a : A)
| Failed (e : rest_exn).
Arguments Resolved {A} a.
Arguments Failed {A} e.

(** The state: the world of the auth client and the log of REST requests
    (oldest first). *)
Definition rest_async (A : Type) : Type :=
  world * list rest_request -> rest_completion A * (world * list rest_request).

Definition rest_ret {A} (a : A) : rest_async A := fun st => (Resolved a, st).
Definition rest_throw {A} (e : rest_exn) : rest_async A :=
  fun st => (Failed e, st).
Definition rest_bind {A B} (m : rest_async A) (k : A -> rest_async B)
  : rest_async B :=
  fun st =>
    match m st with
    | (Resolved a, st') => k a st'
    | (Failed e, st') => (Failed e, st')
    end.

Notation "'await' x ⇐ m ; k" := (rest_bind m (fun x => k))
  (at level 10, x name, m at level 100, k at level 200,
   format "'[v' 'await'  x  ⇐  m ; '/' k ']'").

Section Methods.
(** [J] is the parsed JSON of a response, [D] the record data passed to
    [create] and [update]; the two library functions are parameters. *)
Variables J D : Type.
Variable JSON_stringify : D -> string.
Variable encodeURIComponent : string -> string.
Variable config : SalesforceRestConfig.
Variable getAccessToken : async (option string).
Variable rest_fetch : rest_request -> option (rest_response J).

(** [`${config.instanceUrl}/services/data/v${config.apiVersion || '59.0'}`] *)
Definition baseUrl : string :=
  instanceUrl config +:+ "/services/data/v" +:+
  match apiVersion config with
  | Some version => if truthy version then version else "59.0"
  | None => "59.0"
  end.

Definition call_getAccessToken : rest_async (option string) :=
  fun st =>
    match getAccessToken (fst st) with
    | (Return token, w') => (Resolved token, (w', snd st))
    | (Throw e, w') => (Failed (Propagated e), (w', snd st))
    end.

Definition fetch (req : rest_request) : rest_async (rest_response J) :=
  fun st =>
    let st' := (fst st, (snd st ++ [req])%list) in
    match rest_fetch req with
    | None => (Failed (Propagated FetchRejected), st')
    | Some response => (Resolved response, st')
    end.

Definition getHeaders : rest_async (list (string * string)) :=
  await token ⇐ call_getAccessToken;
  if js_not token then
    rest_throw (Propagated (SalesforceAuthError not_authenticated))
  else
    rest_ret [("Authorization", "Bearer " +:+ default "" token);
              ("Content-Type", "application/json")].

Definition query (soql : string) : rest_async J :=
  await headers ⇐ getHeaders;
  await response ⇐ fetch
    (mkRestRequest (baseUrl +:+ "/query?q=" +:+ encodeURIComponent soql)
                   M_GET headers None);
  if negb (rest_ok response) then
    rest_throw (Error ("Query failed: " +:+ rest_statusText response))
  else rest_ret (rest_json response).

Definition create (objectName : string) (data : D) : rest_async J :=
  await headers ⇐ getHeaders;
  await response ⇐ fetch
    (mkRestRequest (baseUrl +:+ "/sobjects/" +:+ objectName)
                   M_POST headers (Some (JSON_stringify data)));
  if negb (rest_ok response) then
    rest_throw (Error ("Create failed: " +:+ rest_statusText response))
  else rest_ret (rest_json response).

Definition update (objectName id : string) (data : D) : rest_async unit :=
  await headers ⇐ getHeaders;
  await response ⇐ fetch
    (mkRestRequest (baseUrl +:+ "/sobjects/" +:+ objectName +:+ "/" +:+ id)
                   M_PATCH headers (Some (JSON_stringify data)));
  if negb (rest_ok response) then
    rest_throw (Error ("Update failed: " +:+ rest_statusText response))
  else rest_ret tt.

Definition delete (objectName id : string) : rest_async unit :=
  await headers ⇐ getHeaders;
  await response ⇐ fetch
    (mkRestRequest (baseUrl +:+ "/sobjects/" +:+ objectName +:+ "/" +:+ id)
                   M_DELETE headers None);
  if negb (rest_ok response) then
    rest_throw (Error ("Delete failed: " +:+ rest_statusText response))
  else rest_ret tt.

(** [fields] is optional; a given array, even an empty one, is truthy. *)
Definition retrieve (objectName id : string) (fields : option (list string))
  : rest_async J :=
  await headers ⇐ getHeaders;
  let url :=
    match fields with
    | Some fields =>
        baseUrl +:+ "/sobjects/" +:+ objectName +:+ "/" +:+ id
                +:+ "?fields=" +:+ String.concat "," fields
    | None => baseUrl +:+ "/sobjects/" +:+ objectName +:+ "/" +:+ id
    end in
  await response ⇐ fetch (mkRestRequest url M_GET headers None);
  if negb (rest_ok response) then
    rest_throw (Error ("Retrieve failed: " +:+ rest_statusText response))
  else rest_ret (rest_json response).

(** The five methods as one family of calls, each resolving with the JSON
    it returns, if any. *)
Inductive rest_call :=
| Query (soql : string)
| Create (objectName : string) (data : D)
| Update (objectName id : string) (data : D)
| Delete (objectName id : string)
| Retrieve (objectName id : string) (fields : option (list string)).

Definition forget {A B} (f : A -> B) (m : rest_async A) : rest_async B :=
  fun st =>
    match m st with
    | (Resolved a, st') => (Resolved (f a), st')
    | (Failed e, st') => (Failed e, st')
    end.

Definition run_call (c : rest_call) : rest_async (option J) :=
  match c with
  | Query soql => forget Some (query soql)
  | Create objectName data => forget Some (create objectName data)
  | Update objectName id data => forget (fun _ => None) (update objectName id data)
  | Delete objectName id => forget (fun _ => None) (delete objectName id)
  | Retrieve objectName id fields =>
      forget Some (retrieve objectName id fields)
  end.

Definition call_label (c : rest_call) : string :=
  match c with
  | Query _ => "Query"
  | Create _ _ => "Create"
  | Update _ _ _ => "Update"
  | Delete _ _ => "Delete"
  | Retrieve _ _ _ => "Retrieve"
  end.

Definition call_verb (c : rest_call) : rest_method :=
  match c with
  | Query _ | Retrieve _ _ _ => M_GET
  | Create _ _ => M_POST
  | Update _ _ _ => M_PATCH
  | Delete _ _ => M_DELETE
  end.

Definition call_data (c : rest_call) : option D :=
  match c with
  | Create _ data | Update _ _ data => Some data
  | _ => None
  end.

End Methods.

Arguments Query {D} soql.
Arguments Create {D} objectName data.
Arguments Update {D} objectName id data.
Arguments Delete {D} objectName id.
Arguments Retrieve {D} objectName id fields.
Arguments call_label {D} c.
Arguments call_verb {D} c.
Arguments call_data {D} c.

End SalesforceRestClient.

(** A REST client over the sample auth client: JSON and record data are
    plain strings, the token getter reads the client's store, and the
    instance answers every request with 200. *)
Module SampleRest.

Definition config : SalesforceRestClient.SalesforceRestConfig :=
  SalesforceRestClient.mkSalesforceRestConfig None "https://eu1.example.org".

Definition getAccessToken : async (option string) :=
  getItem (L := Sample.libs) (storage Sample.web_client) "accessToken".

Definition instance (r : SalesforceRestClient.rest_request)
  : option (SalesforceRestClient.rest_response string) :=
  Some (SalesforceRestClient.mkRestResponse true "OK" "{}").

Definition run (c : SalesforceRestClient.rest_call string)
  : SalesforceRestClient.rest_async (option string) :=
  SalesforceRestClient.run_call string string (fun data => data)
    (fun s => s) config getAccessToken instance c.

End SampleRest.
(* ===================================================================== *)
(** * Properties of the PKCE primitives *)
(* ===================================================================== *)

Example sha256_constants :
  firstn 4 SHA256.K = [0x428a2f98; 0x71374491; 0xb5c0fbcf; 0xe9b5dba5] /\
  nth 63 SHA256.K 0 = 0xc67178f2 /\
  SHA256.ha SHA256.H0 = 0x6a09e667 /\ SHA256.hh SHA256.H0 = 0x5be0cd19.
Proof. vm_compute. repeat split. Qed.

Example sha256_abc :
  SHA256.sha256 (utf8_bytes "abc") =
  [0xba; 0x78; 0x16; 0xbf; 0x8f; 0x01; 0xcf; 0xea;
   0x41; 0x41; 0x40; 0xde; 0x5d; 0xae; 0x22; 0x23;
   0xb0; 0x03; 0x61; 0xa3; 0x96; 0x17; 0x7a; 0x9c;
   0xb4; 0x10; 0xff; 0x61; 0xf2; 0x00; 0x15; 0xad].
Proof. vm_compute. reflexivity. Qed.

Example sha256_two_blocks :
  Base64Url.encode (SHA256.sha256 (utf8_bytes
    "abcdbcdecdefdefgefghfghighijhijkijkljklmklmnlmnomnopnopq"))
  = "JI1qYdIGOLjlwCaTDD5gOaM85Flk_yFn9uzt1BnbBsE".
Proof. vm_compute. reflexivity. Qed.

Lemma list_ind3 (A : Type) (P : list A -> Prop) :
  P [] -> (forall a, P [a]) -> (forall a b, P [a; b]) ->
  (forall a b c l, P l -> P (a :: b :: c :: l)) ->
  forall l, P l.
Proof.
  intros P0 P1 P2 P3. fix IH 1. intros l.
  destruct l as [| a [| b [| c rest]]];
    [exact P0 | apply P1 | apply P2 | apply P3; apply IH].
Qed.

Lemma encode_length (bs : list Z) :
  String.length (Base64Url.encode bs) = ((4 * length bs + 2) / 3)%nat.
Proof.
  induction bs as [| a | a b | a b c l IH] using list_ind3;
    try reflexivity.
  change (String.length (Base64Url.encode (a :: b :: c :: l)))
    with (S (S (S (S (String.length (Base64Url.encode l)))))).
  rewrite IH. cbn [length].
  replace (4 * S (S (S (length l))) + 2)%nat
    with ((4 * length l + 2) + 4 * 3)%nat by lia.
  rewrite Nat.div_add by lia. lia.
Qed.

Lemma digest_bytes_length (h : SHA256.hash) :
  length (SHA256.digest_bytes h) = 32%nat.
Proof. reflexivity. Qed.

Lemma sha256_length (msg : list Z) : length (SHA256.sha256 msg) = 32%nat.
Proof. unfold SHA256.sha256. apply digest_bytes_length. Qed.

Lemma get_In (s : string) (n : nat) (c : ascii) :
  String.get n s = Some c -> In c (list_ascii_of_string s).
Proof.
  revert n. induction s as [| a s IH]; intros n Hget; [discriminate |].
  destruct n as [| n]; cbn in Hget.
  - injection Hget as ->. now left.
  - right. eauto.
Qed.

Lemma digit_in_alphabet (i : Z) :
  In (Base64Url.digit i) (list_ascii_of_string Base64Url.alphabet).
Proof.
  unfold Base64Url.digit.
  destruct (String.get _ Base64Url.alphabet) as [c |] eqn:Hget.
  - eapply get_In, Hget.
  - now left.
Qed.

Lemma encode_alphabet (bs : list Z) (c : ascii) :
  In c (list_ascii_of_string (Base64Url.encode bs)) ->
  In c (list_ascii_of_string Base64Url.alphabet).
Proof.
  induction bs as [| a | a b | a b d l IH] using list_ind3;
    cbn [Base64Url.encode list_ascii_of_string In];
    intuition (subst; auto using digit_in_alphabet).
Qed.

Lemma pad_char_not_in_alphabet :
  ~ In "="%char (list_ascii_of_string Base64Url.alphabet).
Proof. cbn. intuition discriminate. Qed.

Lemma url_safe_encode (bs : list Z) :
  Base64Url.url_safe (Base64Url.encode bs) = true.
Proof.
  unfold Base64Url.url_safe. apply forallb_forall. intros c Hc.
  apply existsb_exists. exists c. split.
  - now apply (encode_alphabet bs).
  - apply Ascii.eqb_refl.
Qed.

(** C9. [generateCodeChallenge] resolves, in every world and without
    touching it, with the unpadded base64url encoding of the SHA-256 digest
    of the verifier: two calls on the same verifier give the same string
    whatever the worlds they run in, the string has the 43 characters of an
    unpadded 32-byte digest, all of them in the URL-safe alphabet, and on
    the verifier of RFC 7636, appendix B, it is the challenge printed
    there. *)
Theorem generateCodeChallenge_S256 :
  (forall v w,
      generateCodeChallenge v w
      = (Return (Base64Url.encode (SHA256.sha256 (utf8_bytes v))), w)) /\
  (forall v w1 w2,
      result (generateCodeChallenge v) w1
      = result (generateCodeChallenge v) w2) /\
  (forall v, String.length (S256 v) = 43%nat) /\
  (forall v, Base64Url.url_safe (S256 v) = true) /\
  result (generateCodeChallenge "dBjftJeZ4CVP-mB92K27uhbUJU1p1r_wW1gFWFOEjXk")
         empty_world
  = Return "E9Melhoa2OwvFrEMTJguCHaoeK1t8URWbuGJSstw-cM".
Proof.
  split; [| split; [| split; [| split]]].
  - reflexivity.
  - reflexivity.
  - intros v. unfold S256. rewrite encode_length, sha256_length. reflexivity.
  - intros v. apply url_safe_encode.
  - vm_compute. reflexivity.
Qed.

(* ===================================================================== *)
(** * Properties of the token stores *)
(* ===================================================================== *)

Lemma truthy_true (s : string) : truthy s = true <-> s <> "".
Proof.
  unfold truthy. destruct (String.eqb_spec s ""); cbn; split; congruence.
Qed.

Lemma truthy_false (s : string) : truthy s = false <-> s = "".
Proof.
  unfold truthy. destruct (String.eqb_spec s ""); cbn; split; congruence.
Qed.

Lemma js_not_false (x : option string) :
  js_not x = false <-> exists s, x = Some s /\ s <> "".
Proof.
  destruct x as [s |]; cbn.
  - rewrite negb_false_iff, truthy_true. split.
    + eauto.
    + now intros (? & [= <-] & ?).
  - split; [discriminate | now intros (? & ? & _)].
Qed.

Lemma js_not_true (x : option string) :
  js_not x = true <-> x = None \/ x = Some "".
Proof.
  destruct x as [s |]; cbn.
  - rewrite negb_true_iff, truthy_false. split.
    + intros ->. now right.
    + now intros [? | [= ->]].
  - intuition.
Qed.

Lemma append_right_inj (p a b : string) : p +:+ a = p +:+ b -> a = b.
Proof. apply (inj (String.app p)). Qed.

Lemma append_empty_r (p : string) : p +:+ "" = p.
Proof.
  induction p as [| c p IH]; [reflexivity |].
  change (String c p +:+ "") with (String c (p +:+ "")). now rewrite IH.
Qed.

Lemma append_right_neq (p a : string) : a <> "" -> p +:+ a <> p.
Proof.
  intros Ha Heq. apply Ha, (append_right_inj p).
  now rewrite append_empty_r.
Qed.

Lemma getStorageKey_inj (id k1 k2 : string) :
  SecureStorage.getStorageKey id k1 = SecureStorage.getStorageKey id k2 ->
  k1 = k2.
Proof.
  unfold SecureStorage.getStorageKey. intros Heq.
  now apply append_right_inj, append_right_inj in Heq.
Qed.

Lemma getKey_inj (appId k1 k2 : string) :
  BrowserStorage.getKey appId (Some k1) = BrowserStorage.getKey appId (Some k2) ->
  k1 = k2.
Proof.
  unfold BrowserStorage.getKey. intros Heq.
  now do 4 apply append_right_inj in Heq.
Qed.

Lemma getKey_legacy_neq (appId k : string) :
  BrowserStorage.getKey appId (Some k) <> BrowserStorage.getKey appId None.
Proof.
  unfold BrowserStorage.getKey. intros Heq.
  do 2 apply append_right_inj in Heq.
  now apply append_right_neq in Heq.
Qed.

Section StoreLaws.
Context `{L : Libraries}.

Ltac run_async :=
  unfold stored, result, after, getItem, setItem, removeItem,
    SecureStorage.getItem, SecureStorage.setItem, SecureStorage.removeItem,
    SecureStorage.encrypt, SecureStorage.decrypt,
    BrowserStorage.getItem, BrowserStorage.setItem, BrowserStorage.removeItem,
    Media.AsyncStorage_getItem, Media.AsyncStorage_setItem,
    Media.AsyncStorage_removeItem, Media.SecureStore_getItemAsync,
    Media.SecureStore_setItemAsync, Media.SecureStore_deleteItemAsync,
    Media.localStorage_getItem, Media.localStorage_setItem,
    Media.localStorage_removeItem, Media.sessionStorage_getItem,
    Media.sessionStorage_setItem, Media.sessionStorage_removeItem,
    Media.CryptoES_AES_encrypt, generateRandomString,
    bind, ret, gets, modify in *; cbn in *.

(** What the secure store reads, in terms of the two media. *)
Lemma stored_secure (id key : string) (w : world) :
  stored (NewSecureStorage id) key w =
  match AsyncStorage w !! SecureStorage.getStorageKey id key with
  | Some encrypted =>
      if truthy encrypted then
        match SecureStore w !! SecureStorage.getStorageKey id key with
        | Some encryptionKey =>
            if truthy encryptionKey
            then Some (AES_decrypt encrypted encryptionKey)
            else None
        | None => None
        end
      else None
  | None => None
  end.
Proof.
  run_async.
  destruct (AsyncStorage w !! _) as [enc |]; cbn; [| reflexivity].
  destruct (truthy enc); cbn; [| reflexivity].
  destruct (SecureStore w !! _) as [ek |]; cbn; [| reflexivity].
  destruct (truthy ek); reflexivity.
Qed.

Lemma stored_browser (appId key : string) (w : world) :
  stored (NewBrowserStorage appId) key w =
  if String.eqb key "signInSession" then
    nullish (sessionStorage w !! BrowserStorage.getKey appId (Some key))
            (sessionStorage w !! BrowserStorage.getKey appId None)
  else localStorage w !! BrowserStorage.getKey appId (Some key).
Proof. run_async. destruct (String.eqb key _); reflexivity. Qed.

(** [getItem] never throws and never changes the world. *)
Lemma getItem_run (s : Storage) (key : string) (w : world) :
  getItem s key w = (Return (stored s key w), w).
Proof.
  destruct s as [id | appId].
  - rewrite stored_secure. run_async.
    destruct (AsyncStorage w !! _) as [enc |]; cbn; [| reflexivity].
    destruct (truthy enc); cbn; [| reflexivity].
    destruct (SecureStore w !! _) as [ek |]; cbn; [| reflexivity].
    destruct (truthy ek); reflexivity.
  - rewrite stored_browser. run_async.
    destruct (String.eqb key _); reflexivity.
Qed.

Lemma SecureStorage_setItem_run (id key value : string) (w : world) :
  SecureStorage.setItem id key value w =
  (Return tt,
   mkWorld
     (<[SecureStorage.getStorageKey id key :=
          AES_encrypt (S (entropy w)) value (randomString (entropy w) 43)]>
        (AsyncStorage w))
     (<[SecureStorage.getStorageKey id key := randomString (entropy w) 43]>
        (SecureStore w))
     (localStorage w) (sessionStorage w) (S (S (entropy w)))
     (sessions w) (network w) (authSessionResult w)).
Proof. reflexivity. Qed.

Lemma SecureStorage_removeItem_run (id key : string) (w : world) :
  SecureStorage.removeItem id key w =
  (Return tt,
   mkWorld
     (delete (SecureStorage.getStorageKey id key) (AsyncStorage w))
     (delete (SecureStorage.getStorageKey id key) (SecureStore w))
     (localStorage w) (sessionStorage w) (entropy w)
     (sessions w) (network w) (authSessionResult w)).
Proof. reflexivity. Qed.

Lemma BrowserStorage_setItem_run (appId key value : string) (w : world) :
  BrowserStorage.setItem appId key value w =
  (Return tt,
   if String.eqb key "signInSession"
   then set_sessionStorage
          (<[BrowserStorage.getKey appId (Some key) := value]> (sessionStorage w)) w
   else set_localStorage
          (<[BrowserStorage.getKey appId (Some key) := value]> (localStorage w)) w).
Proof. run_async. destruct (String.eqb key _); reflexivity. Qed.

Lemma BrowserStorage_removeItem_run (appId key : string) (w : world) :
  BrowserStorage.removeItem appId key w =
  (Return tt,
   if String.eqb key "signInSession"
   then set_sessionStorage
          (delete (BrowserStorage.getKey appId (Some key)) (sessionStorage w)) w
   else set_localStorage
          (delete (BrowserStorage.getKey appId (Some key)) (localStorage w)) w).
Proof. run_async. destruct (String.eqb key _); reflexivity. Qed.

(** Writes and removals always resolve. *)
Lemma setItem_returns (s : Storage) (key value : string) (w : world) :
  result (setItem s key value) w = Return tt.
Proof.
  destruct s; unfold result, setItem.
  - now rewrite SecureStorage_setItem_run.
  - now rewrite BrowserStorage_setItem_run.
Qed.

Lemma removeItem_returns (s : Storage) (key : string) (w : world) :
  result (removeItem s key) w = Return tt.
Proof.
  destruct s; unfold result, removeItem.
  - now rewrite SecureStorage_removeItem_run.
  - now rewrite BrowserStorage_removeItem_run.
Qed.

Lemma setItem_eta (s : Storage) (key value : string) (w : world) :
  setItem s key value w = (Return tt, after (setItem s key value) w).
Proof.
  pose proof (setItem_returns s key value w) as Hr. unfold result, after in *.
  destruct (setItem s key value w); cbn in *; congruence.
Qed.

Lemma removeItem_eta (s : Storage) (key : string) (w : world) :
  removeItem s key w = (Return tt, after (removeItem s key) w).
Proof.
  pose proof (removeItem_returns s key w) as Hr. unfold result, after in *.
  destruct (removeItem s key w); cbn in *; congruence.
Qed.

Lemma stored_setItem_eq `{Lok : !LibrariesOk L} (s : Storage) (key value : string)
    (w : world) :
  stored s key (after (setItem s key value) w) = Some value.
Proof.
  destruct s as [id | appId]; unfold after, setItem.
  - rewrite SecureStorage_setItem_run, stored_secure. cbn.
    rewrite !lookup_insert_eq.
    destruct (truthy (AES_encrypt _ _ _)) eqn:Henc.
    2:{ apply truthy_false in Henc. now apply encrypt_nonempty in Henc. }
    destruct (truthy (randomString _ _)) eqn:Hkey.
    2:{ apply truthy_false in Hkey. apply random_nonempty in Hkey; [easy | lia]. }
    now rewrite decrypt_encrypt.
  - rewrite BrowserStorage_setItem_run, stored_browser. cbn.
    destruct (String.eqb key _); cbn; now rewrite lookup_insert_eq.
Qed.

Lemma stored_setItem_ne (s : Storage) (key key' value : string) (w : world) :
  key <> key' ->
  stored s key' (after (setItem s key value) w) = stored s key' w.
Proof.
  intros Hne. destruct s as [id | appId]; unfold after, setItem.
  - rewrite SecureStorage_setItem_run, !stored_secure. cbn.
    rewrite !lookup_insert_ne; [reflexivity | |];
      intros Heq; apply getStorageKey_inj in Heq; contradiction.
  - rewrite BrowserStorage_setItem_run, !stored_browser. cbn.
    destruct (String.eqb_spec key "signInSession") as [-> | Hk],
             (String.eqb_spec key' "signInSession") as [-> | Hk']; cbn;
      try reflexivity; try contradiction.
    rewrite lookup_insert_ne; [reflexivity |].
    intros Heq. apply getKey_inj in Heq. contradiction.
Qed.

Lemma stored_removeItem_eq (s : Storage) (key : string) (w : world) :
  (key = "signInSession" -> legacy_free s w) ->
  stored s key (after (removeItem s key) w) = None.
Proof.
  intros Hlegacy. destruct s as [id | appId]; unfold after, removeItem.
  - rewrite SecureStorage_removeItem_run, stored_secure. cbn.
    now rewrite lookup_delete_eq.
  - rewrite BrowserStorage_removeItem_run, stored_browser. cbn in *.
    destruct (String.eqb_spec key "signInSession") as [-> | Hk]; cbn.
    + rewrite lookup_delete_eq. cbn.
      rewrite lookup_delete_ne by apply getKey_legacy_neq. auto.
    + now rewrite lookup_delete_eq.
Qed.

Lemma stored_removeItem_ne (s : Storage) (key key' : string) (w : world) :
  key <> key' ->
  stored s key' (after (removeItem s key) w) = stored s key' w.
Proof.
  intros Hne. destruct s as [id | appId]; unfold after, removeItem.
  - rewrite SecureStorage_removeItem_run, !stored_secure. cbn.
    rewrite !lookup_delete_ne; [reflexivity | |];
      intros Heq; apply getStorageKey_inj in Heq; contradiction.
  - rewrite BrowserStorage_removeItem_run, !stored_browser. cbn.
    destruct (String.eqb_spec key "signInSession") as [-> | Hk],
             (String.eqb_spec key' "signInSession") as [-> | Hk']; cbn;
      try reflexivity; try contradiction.
    rewrite lookup_delete_ne; [reflexivity |].
    intros Heq. apply getKey_inj in Heq. contradiction.
Qed.

Lemma legacy_free_setItem (s : Storage) (key value : string) (w : world) :
  legacy_free s w -> legacy_free s (after (setItem s key value) w).
Proof.
  destruct s as [id | appId]; [easy |]. unfold after, setItem, legacy_free.
  rewrite BrowserStorage_setItem_run. cbn.
  destruct (String.eqb key _); cbn; [| easy].
  intros Hfree. now rewrite lookup_insert_ne by apply getKey_legacy_neq.
Qed.

Lemma legacy_free_removeItem (s : Storage) (key : string) (w : world) :
  legacy_free s w -> legacy_free s (after (removeItem s key) w).
Proof.
  destruct s as [id | appId]; [easy |]. unfold after, removeItem, legacy_free.
  rewrite BrowserStorage_removeItem_run. cbn.
  destruct (String.eqb key _); cbn; [| easy].
  intros Hfree. now rewrite lookup_delete_ne by apply getKey_legacy_neq.
Qed.

Lemma removeItem_idempotent (s : Storage) (key : string) (w : world) :
  after (removeItem s key) (after (removeItem s key) w)
  = after (removeItem s key) w.
Proof.
  destruct s as [id | appId]; unfold after, removeItem.
  - rewrite !SecureStorage_removeItem_run. cbn.
    now rewrite !delete_delete_eq.
  - rewrite !BrowserStorage_removeItem_run. cbn.
    destruct (String.eqb key _); cbn; unfold set_sessionStorage,
      set_localStorage; cbn; now rewrite delete_delete_eq.
Qed.

(** Writes and removals leave the request log and the session result
    alone. *)
Lemma setItem_frame (s : Storage) (key value : string) (w : world) :
  network (after (setItem s key value) w) = network w /\
  authSessionResult (after (setItem s key value) w) = authSessionResult w.
Proof.
  destruct s as [id | appId]; unfold after, setItem.
  - now rewrite SecureStorage_setItem_run.
  - rewrite BrowserStorage_setItem_run. cbn. now destruct (String.eqb key _).
Qed.

Lemma removeItem_frame (s : Storage) (key : string) (w : world) :
  network (after (removeItem s key) w) = network w /\
  authSessionResult (after (removeItem s key) w) = authSessionResult w.
Proof.
  destruct s as [id | appId]; unfold after, removeItem.
  - now rewrite SecureStorage_removeItem_run.
  - rewrite BrowserStorage_removeItem_run. cbn. now destruct (String.eqb key _).
Qed.

(** ** The store refines a finite map *)

Lemma run_ops_refines `{Lok : !LibrariesOk L} (s : Storage) (ops : list store_op) :
  forall (w : world) (m : gmap string string),
    legacy_free s w ->
    (forall key, stored s key w = m !! key) ->
    legacy_free s (after (run_ops s ops) w) /\
    forall key, stored s key (after (run_ops s ops) w) = contents ops m !! key.
Proof.
  induction ops as [| op ops IH]; intros w m Hfree Hrefines; [easy |].
  unfold after in *. cbn [run_ops contents]. unfold bind.
  destruct op as [k v | k | k]; cbn [run_op].
  - rewrite setItem_eta. apply IH.
    + now apply legacy_free_setItem.
    + intros key. destruct (decide (k = key)) as [<- | Hne].
      * now rewrite stored_setItem_eq, lookup_insert_eq.
      * now rewrite stored_setItem_ne, lookup_insert_ne.
  - rewrite removeItem_eta. apply IH.
    + now apply legacy_free_removeItem.
    + intros key. destruct (decide (k = key)) as [<- | Hne].
      * now rewrite stored_removeItem_eq, lookup_delete_eq.
      * now rewrite stored_removeItem_ne, lookup_delete_ne.
  - unfold bind. rewrite getItem_run. cbn. now apply IH.
Qed.

Lemma contents_never_written (key : string) (ops : list store_op) :
  forall m : gmap string string,
    m !! key = None ->
    (forall value, ~ In (SetItem key value) ops) ->
    contents ops m !! key = None.
Proof.
  induction ops as [| op ops IH]; intros m Hm Hnever; [exact Hm |].
  assert (forall value, ~ In (SetItem key value) ops) as Hrest
    by (intros value Hin; apply (Hnever value); now right).
  destruct op as [k v | k | k]; cbn [contents]; apply IH; auto.
  - destruct (decide (k = key)) as [-> | Hne].
    + exfalso. apply (Hnever v). now left.
    + now rewrite lookup_insert_ne.
  - destruct (decide (k = key)) as [-> | Hne].
    + now rewrite lookup_delete_eq.
    + now rewrite lookup_delete_ne.
Qed.

Lemma stored_empty_world (s : Storage) (key : string) :
  stored s key empty_world = None.
Proof.
  destruct s as [id | appId].
  - rewrite stored_secure. cbn. now rewrite lookup_empty.
  - rewrite stored_browser. cbn.
    destruct (String.eqb key _); cbn; now rewrite !lookup_empty.
Qed.

End StoreLaws.

(** ** The sample libraries meet the assumptions *)

Lemma xor_ascii_involutive (k c : ascii) :
  Sample.xor_ascii k (Sample.xor_ascii k c) = c.
Proof.
  destruct k as [k0 k1 k2 k3 k4 k5 k6 k7], c as [c0 c1 c2 c3 c4 c5 c6 c7].
  cbn. now rewrite <- !xorb_assoc, !xorb_nilpotent, !xorb_false_l.
Qed.

Lemma map_xor_involutive (k : ascii) (s : string) :
  Sample.map_string (Sample.xor_ascii k)
    (Sample.map_string (Sample.xor_ascii k) s) = s.
Proof.
  induction s as [| c s IH]; cbn; [reflexivity |].
  now rewrite xor_ascii_involutive, IH.
Qed.

Lemma Sample_libs_ok : LibrariesOk Sample.libs.
Proof.
  constructor.
  - intros salt message passphrase. cbn. apply map_xor_involutive.
  - intros salt message passphrase. cbn. discriminate.
  - intros i n Hn. cbn. destruct n; [lia | discriminate].
Qed.

(** C2 (as stated, it fails): in a browser whose session storage still
    holds an entry under the old un-suffixed key, [signInSession] is
    written, removed, and then read back as the old entry, not as null. *)
Lemma C2_legacy_entry_read_after_removeItem :
  let s := NewBrowserStorage "C1" in
  let w := after (removeItem s "signInSession")
             (after (setItem (L := Sample.libs) s "signInSession" "nonce")
                    Sample.legacy_world) in
  result (getItem (L := Sample.libs) s "signInSession") w
    = Return (Some "old-session") /\
  result (getItem (L := Sample.libs) s "signInSession") w <> Return None.
Proof. vm_compute. split; [reflexivity | discriminate]. Qed.

Lemma getItem_result `{L : Libraries} (s : Storage) (key : string) (w : world) :
  result (getItem s key) w = Return (stored s key w).
Proof. unfold result. now rewrite getItem_run. Qed.

(** C2 (amended).  For both stores, every key, value and world:
    [getItem] after [setItem] resolves with the value written and changes
    nothing; [getItem] after [removeItem] resolves with null, for the key
    [signInSession] provided the session medium holds no entry under the
    old un-suffixed key (the browser store's fallback); on media that
    started empty, after any history of store calls, [getItem] resolves
    with what the history's key/value map holds, so with null for a key the
    history never wrote; and a second [removeItem] resolves and leaves the
    world as the first left it. *)
Theorem token_store_round_trip `{L : Libraries} `{Lok : !LibrariesOk L}
    (s : Storage) (key value : string) (w : world) :
  getItem s key (after (setItem s key value) w)
    = (Return (Some value), after (setItem s key value) w) /\
  ((key = "signInSession" -> legacy_free s w) ->
   result (getItem s key)
          (after (removeItem s key) (after (setItem s key value) w))
     = Return None /\
   result (getItem s key) (after (removeItem s key) w) = Return None) /\
  (forall ops,
      result (getItem s key) (after (run_ops s ops) empty_world)
        = Return (contents ops ∅ !! key)) /\
  (forall ops,
      (forall v, ~ In (SetItem key v) ops) ->
      result (getItem s key) (after (run_ops s ops) empty_world)
        = Return None) /\
  removeItem s key (after (removeItem s key) w)
    = (Return tt, after (removeItem s key) w).
Proof.
  assert (forall ops key',
             stored s key' (after (run_ops s ops) empty_world)
             = contents ops ∅ !! key') as Hrefines.
  { intros ops. apply run_ops_refines.
    - destruct s; cbn; [exact I | apply lookup_empty].
    - intros key'. now rewrite stored_empty_world, lookup_empty. }
  split; [| split; [| split; [| split]]].
  - now rewrite getItem_run, stored_setItem_eq.
  - intros Hlegacy. rewrite !getItem_result, !stored_removeItem_eq; auto.
    intros Hkey. apply legacy_free_setItem; auto.
  - intros ops. now rewrite getItem_result, Hrefines.
  - intros ops Hnever. rewrite getItem_result, Hrefines.
    f_equal. apply contents_never_written; [apply lookup_empty | exact Hnever].
  - now rewrite removeItem_eta, removeItem_idempotent.
Qed.

Lemma token_store_round_trip_witness :
  let s := NewSecureStorage "salesforce.C1" in
  let ops := [SetItem "refreshToken" "RT1"; RemoveItem "refreshToken"] in
  getItem (L := Sample.libs) s "accessToken"
          (after (setItem (L := Sample.libs) s "accessToken" "AT1") empty_world)
    = (Return (Some "AT1"),
       after (setItem (L := Sample.libs) s "accessToken" "AT1") empty_world) /\
  result (getItem (L := Sample.libs) s "accessToken")
         (after (removeItem s "accessToken")
                (after (setItem (L := Sample.libs) s "accessToken" "AT1")
                       empty_world))
    = Return None /\
  result (getItem (L := Sample.libs) s "accessToken")
         (after (run_ops (L := Sample.libs) s ops) empty_world)
    = Return None.
Proof.
  intros s ops.
  destruct (token_store_round_trip (L := Sample.libs)
              (Lok := Sample_libs_ok) s "accessToken" "AT1" empty_world)
    as (Hset & Hremove & _ & Hnever & _).
  split; [exact Hset | split].
  - apply Hremove. discriminate.
  - apply Hnever. intros v [Heq | [Heq | []]]; discriminate.
Defined.

(** C3.  In the secure store, a key whose ciphertext is in the
    general-purpose medium while its encryption key is missing from the
    secure element reads as null: [getItem] resolves (it does not throw)
    with null, whatever the ciphertext, and leaves the world as it is. *)
Theorem SecureStorage_getItem_key_lost `{L : Libraries}
    (id key ciphertext : string) (w : world) :
  AsyncStorage w !! SecureStorage.getStorageKey id key = Some ciphertext ->
  SecureStore w !! SecureStorage.getStorageKey id key = None ->
  SecureStorage.getItem id key w = (Return None, w).
Proof.
  intros Hcipher Hkey.
  change (SecureStorage.getItem id key w)
    with (getItem (NewSecureStorage id) key w).
  rewrite getItem_run, stored_secure, Hcipher, Hkey.
  now destruct (truthy ciphertext).
Qed.

Lemma SecureStorage_getItem_key_lost_witness :
  SecureStorage.getItem (L := Sample.libs) "salesforce.C1" "accessToken"
    Sample.key_lost_world
  = (Return None, Sample.key_lost_world).
Proof.
  eapply (SecureStorage_getItem_key_lost (L := Sample.libs));
    vm_compute; reflexivity.
Defined.

(** The scenario of C3 in general: write a value, delete only the
    secure-element entry; the ciphertext is still there and the value
    reads as null. *)
Lemma SecureStorage_setItem_then_key_deleted `{L : Libraries}
    (id key value : string) (w : world) :
  let w1 := after (SecureStorage.setItem id key value) w in
  let w2 := set_SecureStore
              (delete (SecureStorage.getStorageKey id key) (SecureStore w1)) w1 in
  is_Some (AsyncStorage w2 !! SecureStorage.getStorageKey id key) /\
  SecureStorage.getItem id key w2 = (Return None, w2).
Proof.
  intros w1 w2.
  assert (AsyncStorage w2 !! SecureStorage.getStorageKey id key
          = Some (AES_encrypt (S (entropy w)) value
                              (randomString (entropy w) 43))) as Hcipher.
  { subst w2 w1. unfold after. rewrite SecureStorage_setItem_run. cbn.
    apply lookup_insert_eq. }
  split; [rewrite Hcipher; eauto |].
  change (SecureStorage.getItem id key w2)
    with (getItem (NewSecureStorage id) key w2).
  rewrite getItem_run, stored_secure, Hcipher.
  replace (SecureStore w2 !! SecureStorage.getStorageKey id key)
    with (@None string) by (subst w2; cbn; now rewrite lookup_delete_eq).
  now destruct (truthy _).
Qed.

(* ===================================================================== *)
(** * Properties of the client *)
(* ===================================================================== *)

Lemma same_store_refl (w : world) : same_store w w.
Proof. repeat split. Qed.

Lemma same_store_trans (w1 w2 w3 : world) :
  same_store w1 w2 -> same_store w2 w3 -> same_store w1 w3.
Proof.
  intros (? & ? & ? & ?) (? & ? & ? & ?). repeat split; congruence.
Qed.

Lemma stored_same_store `{L : Libraries} (s : Storage) (key : string)
    (w1 w2 : world) :
  same_store w1 w2 -> stored s key w1 = stored s key w2.
Proof.
  intros (Ha & Hs & Hl & Hss). destruct s.
  - now rewrite !stored_secure, Ha, Hs.
  - now rewrite !stored_browser, Hl, Hss.
Qed.

Section ClientRuns.
Context `{L : Libraries}.
Variable env : environment.
Variable this : SalesforceAuthClient.

(** The world after a successful token exchange whose request has been
    logged in [w1]. *)
Lemma exchangeCodeForToken_run (code codeVerifier redirect : string)
    (w : world) :
  exchangeCodeForToken env this code codeVerifier redirect w =
  let req := token_request this code codeVerifier redirect in
  let w1 := set_network (network w ++ [req]) w in
  match fetch_token env req with
  | Rejected => (Throw FetchRejected, w1)
  | Response ok data =>
      if ok then
        let w2 := after (setItem (storage this) "accessToken"
                                 (access_token data)) w1 in
        (Return tt,
         match refresh_token data with
         | Some refresh =>
             if truthy refresh
             then after (setItem (storage this) "refreshToken" refresh) w2
             else w2
         | None => w2
         end)
      else (Throw (SalesforceAuthError token_exchange_failed), w1)
  end.
Proof.
  unfold exchangeCodeForToken, bind, fetch. cbn.
  destruct (fetch_token env _) as [| ok data]; [reflexivity |].
  destruct ok; cbn; [| reflexivity].
  rewrite setItem_eta.
  destruct (refresh_token data) as [refresh |]; [| reflexivity].
  destruct (truthy refresh); [| reflexivity].
  now rewrite setItem_eta.
Qed.

Lemma signIn_run (w : world) :
  signIn env this w =
  match openAuthSessionAsync env (signIn_request env this w) with
  | success url =>
      if js_not (searchParams_get "code" url)
         || negb (strict_eq (searchParams_get "state" url) (signIn_state w))
      then (Throw (SalesforceAuthError invalid_state),
            signIn_resumed env this w)
      else exchangeCodeForToken env this
             (default "" (searchParams_get "code" url))
             (signIn_codeVerifier w) (signIn_redirectUri env this)
             (signIn_resumed env this w)
  | _ => (Throw (SalesforceAuthError auth_session_failed),
          signIn_resumed env this w)
  end.
Proof.
  unfold signIn, bind, generateRandomString, generateCodeChallenge, ret,
    WebBrowser_openAuthSessionAsync, modify, signIn_resumed.
  cbn.
  change (openAuthSessionAsync env _)
    with (openAuthSessionAsync env (signIn_request env this w)).
  destruct (openAuthSessionAsync env (signIn_request env this w));
    try reflexivity.
  now destruct (js_not _ || _).
Qed.

Lemma signOut_run (w : world) :
  signOut env this w =
  if js_not (stored (storage this) "accessToken" w) then (Return tt, w)
  else
    let req := revoke_request this
                 (default "" (stored (storage this) "accessToken" w)) in
    let w1 := set_network (network w ++ [req]) w in
    match fetch_revoke env req with
    | Rejected => (Throw FetchRejected, w1)
    | Response _ _ =>
        (Return tt,
         after (removeItem (storage this) "refreshToken")
               (after (removeItem (storage this) "accessToken") w1))
    end.
Proof.
  unfold signOut, bind. rewrite getItem_run.
  destruct (js_not _); [reflexivity |]. unfold fetch. cbn.
  destruct (fetch_revoke env _); [reflexivity |].
  rewrite removeItem_eta. apply removeItem_eta.
Qed.

Lemma getUserInfo_run (w : world) :
  getUserInfo env this w =
  if js_not (stored (storage this) "accessToken" w)
  then (Throw (SalesforceAuthError not_authenticated), w)
  else
    let req := userinfo_request this
                 (default "" (stored (storage this) "accessToken" w)) in
    let w1 := set_network (network w ++ [req]) w in
    match fetch_userinfo env req with
    | Rejected => (Throw FetchRejected, w1)
    | Response ok json =>
        if ok then (Return json, w1)
        else (Throw (SalesforceAuthError userinfo_request_failed), w1)
    end.
Proof.
  unfold getUserInfo, bind. rewrite getItem_run.
  destruct (js_not _); [reflexivity |]. unfold fetch. cbn.
  destruct (fetch_userinfo env _) as [| ok json]; [reflexivity |].
  now destruct ok.
Qed.

Lemma isAuthenticated_run (w : world) :
  isAuthenticated this w =
  (Return (negb (js_not (stored (storage this) "accessToken" w))), w).
Proof. unfold isAuthenticated, bind. now rewrite getItem_run. Qed.

End ClientRuns.

Lemma entries_same_store (s : Storage) (key : string) (w1 w2 : world) :
  same_store w1 w2 -> entries s key w1 = entries s key w2.
Proof.
  intros (Ha & Hs & Hl & Hss). destruct s; cbn.
  - now rewrite Ha, Hs.
  - now rewrite Hl, Hss.
Qed.

Lemma entries_setItem_ne `{L : Libraries} (s : Storage)
    (key key' value : string) (w : world) :
  key <> key' ->
  entries s key' (after (setItem s key value) w) = entries s key' w.
Proof.
  intros Hne. destruct s as [id | appId]; unfold after, setItem.
  - rewrite SecureStorage_setItem_run. cbn.
    rewrite !lookup_insert_ne; [reflexivity | |];
      intros Heq; apply getStorageKey_inj in Heq; contradiction.
  - rewrite BrowserStorage_setItem_run. cbn.
    destruct (String.eqb_spec key "signInSession") as [-> | Hk],
             (String.eqb_spec key' "signInSession") as [-> | Hk']; cbn;
      try reflexivity; try contradiction.
    rewrite lookup_insert_ne; [reflexivity |].
    intros Heq. apply getKey_inj in Heq. contradiction.
Qed.

Lemma same_store_set_network (l : list request) (w : world) :
  same_store w (set_network l w).
Proof. repeat split. Qed.

Section Exchange.
Context `{L : Libraries}.
Variable env : environment.
Variable this : SalesforceAuthClient.
Variables code codeVerifier redirect : string.
Variable w : world.

Let req := token_request this code codeVerifier redirect.
Let w' := after (exchangeCodeForToken env this code codeVerifier redirect) w.

(** Exactly one request goes to the token endpoint, whatever it answers. *)
Lemma exchange_network :
  network w' = (network w ++ [req])%list.
Proof.
  subst w' req. unfold after. rewrite exchangeCodeForToken_run. cbn zeta.
  destruct (fetch_token env _) as [| ok data]; [reflexivity |].
  destruct ok; [| reflexivity]. cbn [snd].
  destruct (refresh_token data) as [refresh |];
    [destruct (truthy refresh) |];
    repeat (rewrite (proj1 (setItem_frame _ _ _ _))); reflexivity.
Qed.

Lemma exchange_not_ok (ok : bool) (data : TokenResponse) :
  fetch_token env req = Response ok data ->
  ok = false ->
  result (exchangeCodeForToken env this code codeVerifier redirect) w
    = Throw (SalesforceAuthError token_exchange_failed) /\
  same_store w w'.
Proof.
  intros Hresp ->. subst w' req. unfold result, after.
  rewrite exchangeCodeForToken_run. cbn zeta. rewrite Hresp. cbn.
  split; [reflexivity | apply same_store_set_network].
Qed.

Lemma exchange_rejected :
  fetch_token env req = Rejected ->
  result (exchangeCodeForToken env this code codeVerifier redirect) w
    = Throw FetchRejected /\
  same_store w w'.
Proof.
  intros Hresp. subst w' req. unfold result, after.
  rewrite exchangeCodeForToken_run. cbn zeta. rewrite Hresp. cbn.
  split; [reflexivity | apply same_store_set_network].
Qed.

Lemma exchange_ok_access `{Lok : !LibrariesOk L} (data : TokenResponse) :
  fetch_token env req = Response true data ->
  result (exchangeCodeForToken env this code codeVerifier redirect) w
    = Return tt /\
  stored (storage this) "accessToken" w' = Some (access_token data).
Proof.
  intros Hresp. subst w' req. unfold result, after.
  rewrite exchangeCodeForToken_run. cbn zeta. rewrite Hresp. cbn.
  split; [reflexivity |].
  destruct (refresh_token data) as [refresh |];
    [destruct (truthy refresh) |];
    try rewrite stored_setItem_ne by discriminate;
    apply stored_setItem_eq.
Qed.

Lemma exchange_ok_refresh `{Lok : !LibrariesOk L} (data : TokenResponse)
    (refresh : string) :
  fetch_token env req = Response true data ->
  refresh_token data = Some refresh ->
  refresh <> "" ->
  stored (storage this) "refreshToken" w' = Some refresh.
Proof.
  intros Hresp Hrefresh Hne. subst w' req. unfold after.
  rewrite exchangeCodeForToken_run. cbn zeta. rewrite Hresp, Hrefresh. cbn.
  apply truthy_true in Hne. rewrite Hne. apply stored_setItem_eq.
Qed.

Lemma exchange_ok_no_refresh (data : TokenResponse) :
  fetch_token env req = Response true data ->
  refresh_token data = None \/ refresh_token data = Some "" ->
  stored (storage this) "refreshToken" w'
    = stored (storage this) "refreshToken" w /\
  entries (storage this) "refreshToken" w'
    = entries (storage this) "refreshToken" w.
Proof.
  intros Hresp Hrefresh. subst w' req. unfold after.
  rewrite exchangeCodeForToken_run. cbn zeta. rewrite Hresp.
  destruct Hrefresh as [-> | ->]; cbn;
    rewrite stored_setItem_ne, entries_setItem_ne by discriminate;
    split; symmetry;
    (apply stored_same_store || apply entries_same_store);
    apply same_store_set_network.
Qed.

End Exchange.

(** C4 (as stated, it fails): the token endpoint answers 200 with
    [refresh_token] present but empty; the exchange succeeds and nothing is
    stored under [refreshToken]. *)
Lemma C4_empty_refresh_token_not_stored :
  let this := Sample.web_client in
  let run := exchangeCodeForToken (L := Sample.libs) Sample.empty_refresh this
               "ABC123" "verifier" "app://cb" in
  fetch_token Sample.empty_refresh
              (token_request this "ABC123" "verifier" "app://cb")
    = Response true (mkTokenResponse "AT1" (Some "")) /\
  result run empty_world = Return tt /\
  result (getItem (L := Sample.libs) (storage this) "refreshToken")
         (after run empty_world) = Return None /\
  localStorage (after run empty_world) !! "salesforce_auth:C1:refreshToken"
    = None.
Proof. vm_compute. repeat split. Qed.

(** C4 (amended).  One request goes to the token endpoint and none is
    repeated.  On a non-success response the exchange throws
    [token_exchange_failed] and the store is as before.  On a success
    response it resolves, the access token of the response is what the
    store then holds under [accessToken], and under [refreshToken] it holds
    the response's refresh token when that is present and not the empty
    string; when it is absent or empty, the [refreshToken] entry is as
    before. *)
Theorem exchangeCodeForToken_outcome `{L : Libraries} `{Lok : !LibrariesOk L}
    (env : environment) (this : SalesforceAuthClient)
    (code codeVerifier redirect : string) (w : world)
    (ok : bool) (data : TokenResponse) :
  let req := token_request this code codeVerifier redirect in
  let run := exchangeCodeForToken env this code codeVerifier redirect in
  fetch_token env req = Response ok data ->
  network (after run w) = (network w ++ [req])%list /\
  if ok then
    result run w = Return tt /\
    result (getItem (storage this) "accessToken") (after run w)
      = Return (Some (access_token data)) /\
    match refresh_token data with
    | Some refresh =>
        if String.eqb refresh "" then
          result (getItem (storage this) "refreshToken") (after run w)
            = result (getItem (storage this) "refreshToken") w /\
          entries (storage this) "refreshToken" (after run w)
            = entries (storage this) "refreshToken" w
        else
          result (getItem (storage this) "refreshToken") (after run w)
            = Return (Some refresh)
    | None =>
        result (getItem (storage this) "refreshToken") (after run w)
          = result (getItem (storage this) "refreshToken") w /\
        entries (storage this) "refreshToken" (after run w)
          = entries (storage this) "refreshToken" w
    end
  else
    result run w = Throw (SalesforceAuthError token_exchange_failed) /\
    same_store w (after run w).
Proof.
  intros req run Hresp. subst req run.
  split; [apply exchange_network |].
  destruct ok.
  - destruct (exchange_ok_access env this code codeVerifier redirect w data Hresp)
      as [Hres Haccess].
    split; [exact Hres |]. rewrite !getItem_result.
    split; [now rewrite Haccess |].
    destruct (refresh_token data) as [refresh |] eqn:Hrefresh.
    + destruct (String.eqb_spec refresh "") as [-> | Hne].
      * destruct (exchange_ok_no_refresh env this code codeVerifier redirect
                    w data Hresp) as [Hsame Hentries]; [now right |].
        now rewrite Hsame.
      * now rewrite (exchange_ok_refresh env this code codeVerifier redirect
                       w data refresh Hresp Hrefresh Hne).
    + destruct (exchange_ok_no_refresh env this code codeVerifier redirect
                  w data Hresp) as [Hsame Hentries]; [now left |].
      now rewrite Hsame.
  - now apply (exchange_not_ok env this code codeVerifier redirect w false data).
Qed.

Lemma exchangeCodeForToken_outcome_witness :
  let this := Sample.native_client in
  let run := exchangeCodeForToken (L := Sample.libs) Sample.happy this
               "ABC123" "verifier" "app://cb" in
  network (after run empty_world)
    = [token_request this "ABC123" "verifier" "app://cb"] /\
  result run empty_world = Return tt /\
  result (getItem (L := Sample.libs) (storage this) "accessToken")
         (after run empty_world) = Return (Some "AT1") /\
  result (getItem (L := Sample.libs) (storage this) "refreshToken")
         (after run empty_world) = Return (Some "RT1").
Proof.
  intros this run.
  exact (exchangeCodeForToken_outcome (L := Sample.libs)
           (Lok := Sample_libs_ok) Sample.happy this
           "ABC123" "verifier" "app://cb" empty_world
           true (mkTokenResponse "AT1" (Some "RT1")) eq_refl).
Defined.

(** C10.  A success response that carries an access token and no refresh
    token: the exchange resolves, the store then holds the new access
    token under [accessToken], and what it holds under [refreshToken] --
    the value read and the entries in the media -- is what it held before,
    so a refresh token stored by an earlier sign-in stays. *)
Theorem exchange_without_refresh_token_keeps_old
    `{L : Libraries} `{Lok : !LibrariesOk L}
    (env : environment) (this : SalesforceAuthClient)
    (code codeVerifier redirect : string) (w : world) (data : TokenResponse) :
  let run := exchangeCodeForToken env this code codeVerifier redirect in
  fetch_token env (token_request this code codeVerifier redirect)
    = Response true data ->
  refresh_token data = None ->
  result run w = Return tt /\
  result (getItem (storage this) "accessToken") (after run w)
    = Return (Some (access_token data)) /\
  result (getItem (storage this) "refreshToken") (after run w)
    = result (getItem (storage this) "refreshToken") w /\
  entries (storage this) "refreshToken" (after run w)
    = entries (storage this) "refreshToken" w.
Proof.
  intros run Hresp Hnone. subst run.
  destruct (exchange_ok_access env this code codeVerifier redirect w data Hresp)
    as [Hres Haccess].
  destruct (exchange_ok_no_refresh env this code codeVerifier redirect
              w data Hresp) as [Hsame Hentries]; [now left |].
  rewrite !getItem_result, Haccess, Hsame. auto.
Qed.

Lemma exchange_without_refresh_token_keeps_old_witness :
  let this := Sample.native_client in
  let w := Sample.signed_in this in
  let run := exchangeCodeForToken (L := Sample.libs) Sample.reauth this
               "DEF456" "verifier" "app://cb" in
  result (getItem (L := Sample.libs) (storage this) "refreshToken") w
    = Return (Some "RT1") /\
  result run w = Return tt /\
  result (getItem (L := Sample.libs) (storage this) "accessToken")
         (after run w) = Return (Some "AT2") /\
  result (getItem (L := Sample.libs) (storage this) "refreshToken")
         (after run w) = Return (Some "RT1").
Proof.
  intros this w run.
  assert (result (getItem (L := Sample.libs) (storage this) "refreshToken") w
          = Return (Some "RT1")) as Hbefore by (vm_compute; reflexivity).
  destruct (exchange_without_refresh_token_keeps_old (L := Sample.libs)
              (Lok := Sample_libs_ok) Sample.reauth this
              "DEF456" "verifier" "app://cb" w
              (mkTokenResponse "AT2" None) eq_refl eq_refl)
    as (Hres & Haccess & Hrefresh & _).
  split; [exact Hbefore |]. split; [exact Hres |]. split; [exact Haccess |].
  rewrite <- Hbefore. exact Hrefresh.
Defined.

(** The same on whole sign-ins: a sign-in that gets [AT1] and [RT1],
    followed by one whose token response omits the refresh token. *)
Example stale_refresh_token_after_second_signIn :
  let this := Sample.web_client in
  let w := after (signIn (L := Sample.libs) Sample.reauth this)
                 (Sample.signed_in this) in
  localStorage w !! "salesforce_auth:C1:accessToken" = Some "AT2" /\
  localStorage w !! "salesforce_auth:C1:refreshToken" = Some "RT1".
Proof. vm_compute. split; reflexivity. Qed.

Lemma setItem_sessions `{L : Libraries} (s : Storage) (key value : string)
    (w : world) :
  sessions (after (setItem s key value) w) = sessions w.
Proof.
  destruct s as [id | appId]; unfold after, setItem.
  - now rewrite SecureStorage_setItem_run.
  - rewrite BrowserStorage_setItem_run. cbn. now destruct (String.eqb key _).
Qed.

Section SignIn.
Context `{L : Libraries}.
Variable env : environment.
Variable this : SalesforceAuthClient.
Variable w : world.

Lemma same_store_signIn_resumed : same_store w (signIn_resumed env this w).
Proof. repeat split. Qed.

Lemma signIn_resumed_network :
  network (signIn_resumed env this w) = network w.
Proof. reflexivity. Qed.

(** The outcome of [signIn], read off the browser's and the token
    endpoint's answers. *)
Lemma signIn_result :
  result (signIn env this) w =
  match openAuthSessionAsync env (signIn_request env this w) with
  | success url =>
      if js_not (searchParams_get "code" url)
         || negb (strict_eq (searchParams_get "state" url) (signIn_state w))
      then Throw (SalesforceAuthError invalid_state)
      else
        match fetch_token env
                (token_request this (default "" (searchParams_get "code" url))
                   (signIn_codeVerifier w) (signIn_redirectUri env this)) with
        | Rejected => Throw FetchRejected
        | Response ok _ =>
            if ok then Return tt
            else Throw (SalesforceAuthError token_exchange_failed)
        end
  | _ => Throw (SalesforceAuthError auth_session_failed)
  end.
Proof.
  unfold result. rewrite signIn_run.
  destruct (openAuthSessionAsync env _) as [url | | | |]; try reflexivity.
  destruct (js_not _ || _); [reflexivity |].
  rewrite exchangeCodeForToken_run. cbn zeta.
  destruct (fetch_token env _) as [| ok data]; [reflexivity |].
  now destruct ok.
Qed.

Lemma signIn_throw_same_store (e : exn) :
  result (signIn env this) w = Throw e ->
  same_store w (after (signIn env this) w).
Proof.
  unfold result, after. rewrite signIn_run.
  destruct (openAuthSessionAsync env _) as [url | | | |];
    try (intros _; apply same_store_signIn_resumed).
  destruct (js_not _ || _); [intros _; apply same_store_signIn_resumed |].
  rewrite exchangeCodeForToken_run. cbn zeta.
  destruct (fetch_token env _) as [| ok data].
  - intros _. cbn. eapply same_store_trans;
      [apply same_store_signIn_resumed | apply same_store_set_network].
  - destruct ok; [discriminate |].
    intros _. cbn. eapply same_store_trans;
      [apply same_store_signIn_resumed | apply same_store_set_network].
Qed.

Lemma signIn_sessions :
  sessions (after (signIn env this) w)
  = (sessions w ++ [signIn_request env this w])%list.
Proof.
  unfold after. rewrite signIn_run.
  destruct (openAuthSessionAsync env _) as [url | | | |]; try reflexivity.
  destruct (js_not _ || _); [reflexivity |].
  rewrite exchangeCodeForToken_run. cbn zeta.
  destruct (fetch_token env _) as [| ok data]; [reflexivity |].
  destruct ok; [| reflexivity]. cbn [snd].
  destruct (refresh_token data) as [refresh |];
    [destruct (truthy refresh) |];
    repeat rewrite setItem_sessions; reflexivity.
Qed.

Lemma signIn_guard (url : URLSearchParams) :
  js_not (searchParams_get "code" url)
  || negb (strict_eq (searchParams_get "state" url) (signIn_state w)) = true
  <-> searchParams_get "code" url = None \/
      searchParams_get "code" url = Some "" \/
      searchParams_get "state" url <> Some (signIn_state w).
Proof.
  rewrite orb_true_iff, js_not_true, negb_true_iff.
  assert (strict_eq (searchParams_get "state" url) (signIn_state w) = false
          <-> searchParams_get "state" url <> Some (signIn_state w)) as ->.
  { destruct (searchParams_get "state" url) as [s |]; cbn; [| easy].
    destruct (String.eqb_spec s (signIn_state w)); split; congruence. }
  tauto.
Qed.

End SignIn.

(** C7.  A [signIn] that throws -- [auth_session_failed] when the browser
    step resolves with anything but success, [invalid_state] when the code
    is missing or the state differs, [token_exchange_failed] when the token
    endpoint refuses, or the rejection of [fetch] itself -- leaves the four
    storage media as they were, and [isAuthenticated] answers after it what
    it answered before. *)
Theorem signIn_failure_leaves_store `{L : Libraries}
    (env : environment) (this : SalesforceAuthClient) (w : world) (e : exn) :
  result (signIn env this) w = Throw e ->
  same_store w (after (signIn env this) w) /\
  result (isAuthenticated this) (after (signIn env this) w)
    = result (isAuthenticated this) w /\
  (forall key,
      result (getItem (storage this) key) (after (signIn env this) w)
      = result (getItem (storage this) key) w) /\
  (e = SalesforceAuthError auth_session_failed \/
   e = SalesforceAuthError invalid_state \/
   e = SalesforceAuthError token_exchange_failed \/
   e = FetchRejected).
Proof.
  intros Hthrow.
  pose proof (signIn_throw_same_store env this w e Hthrow) as Hsame.
  split; [exact Hsame |]. split; [| split].
  - unfold result. rewrite !isAuthenticated_run. cbn.
    now rewrite (stored_same_store _ _ _ _ Hsame).
  - intros key. rewrite !getItem_result.
    now rewrite (stored_same_store _ _ _ _ Hsame).
  - rewrite signIn_result in Hthrow.
    destruct (openAuthSessionAsync env _) as [url | | | |];
      try (injection Hthrow as <-; auto).
    destruct (js_not _ || _); [injection Hthrow as <-; auto |].
    destruct (fetch_token env _) as [| ok data];
      [injection Hthrow as <-; auto |].
    destruct ok; [discriminate | injection Hthrow as <-; auto].
Qed.

Lemma signIn_failure_leaves_store_witness :
  let this := Sample.web_client in
  let w' := after (signIn (L := Sample.libs) Sample.tampered this) empty_world in
  result (signIn (L := Sample.libs) Sample.tampered this) empty_world
    = Throw (SalesforceAuthError invalid_state) /\
  same_store empty_world w' /\
  result (isAuthenticated (L := Sample.libs) this) w' = Return false.
Proof.
  intros this w'.
  assert (result (signIn (L := Sample.libs) Sample.tampered this) empty_world
          = Throw (SalesforceAuthError invalid_state)) as Hthrow
    by (vm_compute; reflexivity).
  destruct (signIn_failure_leaves_store (L := Sample.libs) Sample.tampered
              this empty_world _ Hthrow) as (Hsame & Hauth & _).
  split; [exact Hthrow |]. split; [exact Hsame |].
  subst w'. rewrite Hauth. vm_compute. reflexivity.
Defined.

(** The other two failures of the same claim, run on the samples. *)
Example signIn_cancelled :
  let this := Sample.native_client in
  let w' := after (signIn (L := Sample.libs) Sample.cancelled this) empty_world in
  result (signIn (L := Sample.libs) Sample.cancelled this) empty_world
    = Throw (SalesforceAuthError auth_session_failed) /\
  AsyncStorage w' = ∅ /\ SecureStore w' = ∅ /\ network w' = [].
Proof. vm_compute. repeat split. Qed.

Example signIn_rejected_by_token_endpoint :
  let this := Sample.native_client in
  let w' := after (signIn (L := Sample.libs) Sample.rejected this) empty_world in
  result (signIn (L := Sample.libs) Sample.rejected this) empty_world
    = Throw (SalesforceAuthError token_exchange_failed) /\
  AsyncStorage w' = ∅ /\ SecureStore w' = ∅ /\ length (network w') = 1%nat.
Proof. vm_compute. repeat split. Qed.

(** C1 (as stated, it fails): the redirect carries the state that was
    generated and a [code] parameter that is present but empty; [signIn]
    throws [invalid_state]. *)
Lemma C1_empty_code_raises_invalid_state :
  let this := Sample.web_client in
  let url := [("code", ""); ("state", signIn_state (L := Sample.libs) empty_world)] in
  openAuthSessionAsync Sample.empty_code
    (signIn_request (L := Sample.libs) Sample.empty_code this empty_world)
    = success url /\
  searchParams_get "code" url = Some "" /\
  searchParams_get "state" url = Some (signIn_state (L := Sample.libs) empty_world) /\
  result (signIn (L := Sample.libs) Sample.empty_code this) empty_world
    = Throw (SalesforceAuthError invalid_state).
Proof. vm_compute. repeat split. Qed.

(** C1 (amended).  [signIn] opens one authorization session, whose [state]
    parameter is the nonce it has just drawn.  When the browser step
    resolves with success, [signIn] throws [invalid_state] exactly when the
    redirect's query has no [code], or an empty one, or its [state] is not
    that nonce (no request goes to the token endpoint then); when the code
    is present and non-empty and the state is the nonce, the token request
    is issued with that code and the drawn verifier, and the outcome is
    the exchange's, never [invalid_state]. *)
Theorem signIn_state_check `{L : Libraries}
    (env : environment) (this : SalesforceAuthClient) (w : world)
    (url : URLSearchParams) :
  let code := searchParams_get "code" url in
  let returnedState := searchParams_get "state" url in
  let run := signIn env this in
  openAuthSessionAsync env (signIn_request env this w) = success url ->
  sessions (after run w) = (sessions w ++ [signIn_request env this w])%list /\
  searchParams_get "state" (auth_params (signIn_request env this w))
    = Some (signIn_state w) /\
  (result run w = Throw (SalesforceAuthError invalid_state) <->
   code = None \/ code = Some "" \/ returnedState <> Some (signIn_state w)) /\
  (result run w = Throw (SalesforceAuthError invalid_state) ->
   network (after run w) = network w) /\
  (forall c,
      code = Some c -> c <> "" -> returnedState = Some (signIn_state w) ->
      let req := token_request this c (signIn_codeVerifier w)
                               (signIn_redirectUri env this) in
      network (after run w) = (network w ++ [req])%list /\
      result run w =
        match fetch_token env req with
        | Rejected => Throw FetchRejected
        | Response ok _ =>
            if ok then Return tt
            else Throw (SalesforceAuthError token_exchange_failed)
        end /\
      result run w <> Throw (SalesforceAuthError invalid_state)).
Proof.
  intros code returnedState run Hsuccess. subst code returnedState run.
  pose proof (signIn_guard w url) as Hguard.
  pose proof (signIn_result env this w) as Hres. rewrite Hsuccess in Hres.
  split; [apply signIn_sessions |]. split; [reflexivity |].
  split; [| split].
  - rewrite <- Hguard, Hres.
    destruct (js_not _ || _); [easy |].
    split; [| discriminate].
    destruct (fetch_token env _) as [| [|] ?]; discriminate.
  - rewrite Hres. unfold after. rewrite signIn_run, Hsuccess.
    destruct (js_not _ || _); [reflexivity |].
    destruct (fetch_token env _) as [| [|] ?]; discriminate.
  - intros c Hcode Hne Hstate.
    assert (js_not (searchParams_get "code" url)
            || negb (strict_eq (searchParams_get "state" url) (signIn_state w))
            = false) as Hpass.
    { apply not_true_is_false. rewrite Hguard, Hcode, Hstate.
      intros [? | [[= ->] | ?]]; congruence. }
    rewrite Hpass, Hcode in Hres. cbn [default] in Hres.
    split; [| split].
    + pose proof (exchange_network env this c (signIn_codeVerifier w)
                    (signIn_redirectUri env this) (signIn_resumed env this w))
        as Hnet.
      unfold after in *. rewrite signIn_run, Hsuccess, Hpass, Hcode.
      cbn [default]. exact Hnet.
    + exact Hres.
    + rewrite Hres. destruct (fetch_token env _) as [| [|] ?]; discriminate.
Qed.

Lemma signIn_state_check_witness :
  let this := Sample.web_client in
  let run := signIn (L := Sample.libs) Sample.happy this in
  result run empty_world = Return tt /\
  network (after run empty_world)
    = [token_request this "ABC123"
         (signIn_codeVerifier (L := Sample.libs) empty_world) "app://cb"].
Proof.
  intros this run.
  destruct (signIn_state_check (L := Sample.libs) Sample.happy this empty_world
              [("code", "ABC123");
               ("state", signIn_state (L := Sample.libs) empty_world)]
              eq_refl)
    as (_ & _ & _ & _ & Hproceeds).
  destruct (Hproceeds "ABC123" eq_refl) as (Hnet & Hres & _);
    [discriminate | reflexivity |].
  split; [exact Hres | exact Hnet].
Defined.

(** C5 (as stated, it fails): after a sign-in whose token response carried
    an empty [access_token], a value is present under [accessToken] and
    [isAuthenticated] answers false. *)
Lemma C5_empty_access_token_present_not_authenticated :
  let this := Sample.web_client in
  let w := Sample.signed_in_empty this in
  reachable (L := Sample.libs) this w /\
  localStorage w !! "salesforce_auth:C1:accessToken" = Some "" /\
  result (getItem (L := Sample.libs) (storage this) "accessToken") w
    = Return (Some "") /\
  result (isAuthenticated (L := Sample.libs) this) w = Return false.
Proof.
  intros this w. split.
  - exact (reach_signIn this Sample.empty_tokens empty_world (reach_init this)).
  - vm_compute. repeat split.
Qed.

(** C5 (amended).  In every world, [isAuthenticated] answers true exactly
    when the store holds a non-empty value under [accessToken]; it always
    resolves, with true or false, and leaves the world (the request log
    included) as it is. *)
Theorem isAuthenticated_iff_token `{L : Libraries}
    (this : SalesforceAuthClient) (w : world) :
  (result (isAuthenticated this) w = Return true <->
   exists token,
     result (getItem (storage this) "accessToken") w = Return (Some token) /\
     token <> "") /\
  (result (isAuthenticated this) w = Return false <->
   result (getItem (storage this) "accessToken") w = Return None \/
   result (getItem (storage this) "accessToken") w = Return (Some "")) /\
  after (isAuthenticated this) w = w /\
  network (after (isAuthenticated this) w) = network w.
Proof.
  unfold result, after. rewrite isAuthenticated_run, getItem_run. cbn.
  split; [| split; [| split; reflexivity]]; split.
  - intros [= Hjs]. apply negb_true_iff, js_not_false in Hjs.
    destruct Hjs as (token & -> & Hne). eauto.
  - intros (token & [= ->] & Hne). do 2 f_equal.
    now apply negb_true_iff, js_not_false; eauto.
  - intros [= Hjs]. apply negb_false_iff, js_not_true in Hjs.
    destruct Hjs as [-> | ->]; auto.
  - intros [[= ->] | [= ->]]; reflexivity.
Qed.

(** In a reachable world a refresh token is never stored without an access
    token. *)
Lemma reachable_no_access_no_refresh `{L : Libraries} `{Lok : !LibrariesOk L}
    (this : SalesforceAuthClient) (w : world) :
  reachable this w ->
  stored (storage this) "accessToken" w = None ->
  stored (storage this) "refreshToken" w = None.
Proof.
  induction 1 as [| env w Hreach IH | env w Hreach IH | env w Hreach IH
                  | w Hreach IH].
  - intros _. apply stored_empty_world.
  - destruct (result (signIn env this) w) as [[] | e] eqn:Hres.
    + rewrite signIn_result in Hres. unfold after. rewrite signIn_run.
      destruct (openAuthSessionAsync env _) as [url | | | |];
        try discriminate.
      destruct (js_not _ || _); [discriminate |].
      destruct (fetch_token env _) as [| ok data] eqn:Hresp; [discriminate |].
      destruct ok; [| discriminate].
      destruct (exchange_ok_access env this _ _ _ (signIn_resumed env this w)
                  data Hresp) as [_ Haccess].
      unfold after in Haccess. rewrite Haccess. discriminate.
    + pose proof (signIn_throw_same_store env this w e Hres) as Hsame.
      now rewrite <- !(stored_same_store _ _ _ _ Hsame).
  - unfold after. rewrite signOut_run.
    destruct (js_not _); [exact IH |]. cbn zeta.
    destruct (fetch_revoke env _).
    + cbn [snd].
      now rewrite <- !(stored_same_store _ _ _ _ (same_store_set_network _ w)).
    + intros _. cbn [snd]. apply stored_removeItem_eq. discriminate.
  - unfold after. rewrite getUserInfo_run.
    destruct (js_not _); [exact IH |]. cbn zeta.
    destruct (fetch_userinfo env _) as [| [|] ?]; cbn [snd];
      now rewrite <- !(stored_same_store _ _ _ _ (same_store_set_network _ w)).
  - unfold after. now rewrite isAuthenticated_run.
Qed.

Section SignOut.
Context `{L : Libraries}.
Variable env : environment.
Variable this : SalesforceAuthClient.
Variable w : world.

Lemma signOut_falsy_token :
  js_not (stored (storage this) "accessToken" w) = true ->
  signOut env this w = (Return tt, w).
Proof. intros Hjs. now rewrite signOut_run, Hjs. Qed.

Lemma signOut_truthy_token (token : string) :
  stored (storage this) "accessToken" w = Some token ->
  token <> "" ->
  let req := revoke_request this token in
  let w' := after (signOut env this) w in
  network w' = (network w ++ [req])%list /\
  match fetch_revoke env req with
  | Rejected =>
      result (signOut env this) w = Throw FetchRejected /\ same_store w w'
  | Response _ _ =>
      result (signOut env this) w = Return tt /\
      stored (storage this) "accessToken" w' = None /\
      stored (storage this) "refreshToken" w' = None
  end.
Proof.
  intros Htoken Hne req w'. subst req w'. unfold result, after.
  rewrite signOut_run, Htoken.
  assert (js_not (Some token) = false) as -> by (apply js_not_false; eauto).
  cbn [default]. cbn zeta.
  destruct (fetch_revoke env _) as [| ok json]; cbn [fst snd].
  - split; [reflexivity |]. split; [reflexivity |].
    apply same_store_set_network.
  - split.
    + now rewrite (proj1 (removeItem_frame _ _ _)),
        (proj1 (removeItem_frame _ _ _)).
    + split; [reflexivity |]. split.
      * rewrite stored_removeItem_ne by discriminate.
        apply stored_removeItem_eq. discriminate.
      * apply stored_removeItem_eq. discriminate.
Qed.

Lemma signOut_twice (env' : environment) :
  result (signOut env this) w = Return tt ->
  signOut env' this (after (signOut env this) w)
  = (Return tt, after (signOut env this) w).
Proof.
  unfold result, after. rewrite (signOut_run env).
  destruct (js_not (stored (storage this) "accessToken" w)) eqn:Hjs.
  - intros _. cbn [snd]. now rewrite signOut_run, Hjs.
  - cbn zeta. destruct (fetch_revoke env _); [discriminate |].
    intros _. cbn [snd]. rewrite signOut_run.
    rewrite stored_removeItem_ne by discriminate.
    rewrite stored_removeItem_eq by discriminate. reflexivity.
Qed.

End SignOut.

(** C6 (as stated, it fails): an empty access token is stored (with a
    refresh token); [signOut] issues no request and both entries stay. *)
Lemma C6_empty_access_token_not_revoked :
  let this := Sample.web_client in
  let w := Sample.signed_in_empty this in
  let w' := after (signOut (L := Sample.libs) Sample.happy this) w in
  reachable (L := Sample.libs) this w /\
  result (getItem (L := Sample.libs) (storage this) "accessToken") w
    = Return (Some "") /\
  result (signOut (L := Sample.libs) Sample.happy this) w = Return tt /\
  network w' = network w /\
  localStorage w' !! "salesforce_auth:C1:accessToken" = Some "" /\
  localStorage w' !! "salesforce_auth:C1:refreshToken" = Some "RT1".
Proof.
  intros this w w'. split.
  - exact (reach_signIn this Sample.empty_tokens empty_world (reach_init this)).
  - vm_compute. repeat split.
Qed.

(** C6 (amended).  With no access token stored, or an empty one, [signOut]
    resolves without any request and changes nothing; in a reachable world
    with no access token stored there is no refresh token either.  After a
    [signOut] that resolved, a second one resolves and changes nothing.
    With a non-empty access token stored, exactly one request goes out, to
    the revocation endpoint with that token; once it is answered (whatever
    the status) [signOut] resolves and both token entries read as null,
    while a rejected [fetch] is rethrown and leaves the store as it was. *)
Theorem signOut_outcome `{L : Libraries} `{Lok : !LibrariesOk L}
    (env : environment) (this : SalesforceAuthClient) (w : world) :
  let token := result (getItem (storage this) "accessToken") w in
  let w' := after (signOut env this) w in
  (token = Return None \/ token = Return (Some "") ->
   signOut env this w = (Return tt, w)) /\
  (reachable this w -> token = Return None ->
   result (getItem (storage this) "accessToken") w' = Return None /\
   result (getItem (storage this) "refreshToken") w' = Return None) /\
  (forall env',
      result (signOut env this) w = Return tt ->
      signOut env' this w' = (Return tt, w')) /\
  (forall t,
      token = Return (Some t) -> t <> "" ->
      network w' = (network w ++ [revoke_request this t])%list /\
      match fetch_revoke env (revoke_request this t) with
      | Rejected =>
          result (signOut env this) w = Throw FetchRejected /\
          same_store w w'
      | Response _ _ =>
          result (signOut env this) w = Return tt /\
          result (getItem (storage this) "accessToken") w' = Return None /\
          result (getItem (storage this) "refreshToken") w' = Return None
      end).
Proof.
  intros token w'. subst token w'. rewrite getItem_result.
  split; [| split; [| split]].
  - intros Hfalsy. apply signOut_falsy_token, js_not_true.
    destruct Hfalsy as [[= ->] | [= ->]]; auto.
  - intros Hreach [= Hnone]. unfold after.
    rewrite signOut_falsy_token by (rewrite Hnone; reflexivity).
    cbn [snd]. rewrite !getItem_result, Hnone. split; [reflexivity |].
    f_equal. now apply reachable_no_access_no_refresh.
  - intros env'. apply signOut_twice.
  - intros t [= Htoken] Hne. rewrite !getItem_result.
    pose proof (signOut_truthy_token env this w t Htoken Hne) as [Hnet Hres].
    split; [exact Hnet |].
    destruct (fetch_revoke env _); [exact Hres |].
    destruct Hres as (Hr & Ha & Hrf). now rewrite Ha, Hrf.
Qed.

Lemma signOut_outcome_witness :
  let this := Sample.native_client in
  let w := Sample.signed_in this in
  let w' := after (signOut (L := Sample.libs) Sample.happy this) w in
  result (signOut (L := Sample.libs) Sample.happy this) w = Return tt /\
  network w' = (network w ++ [revoke_request this "AT1"])%list /\
  result (getItem (L := Sample.libs) (storage this) "accessToken") w'
    = Return None /\
  result (getItem (L := Sample.libs) (storage this) "refreshToken") w'
    = Return None /\
  signOut (L := Sample.libs) Sample.cancelled this w' = (Return tt, w').
Proof.
  intros this w w'.
  destruct (signOut_outcome (L := Sample.libs) (Lok := Sample_libs_ok)
              Sample.happy this w) as (_ & _ & Htwice & Hrevoke).
  assert (result (getItem (L := Sample.libs) (storage this) "accessToken") w
          = Return (Some "AT1")) as Htoken by (vm_compute; reflexivity).
  destruct (Hrevoke "AT1" Htoken) as (Hnet & Hres & Ha & Hr); [discriminate |].
  split; [exact Hres |]. split; [exact Hnet |].
  split; [exact Ha |]. split; [exact Hr |].
  apply Htwice. exact Hres.
Defined.

(** C8 (as stated, it fails): an empty access token is stored;
    [getUserInfo] throws [not_authenticated] and issues no request. *)
Lemma C8_empty_access_token_not_authenticated :
  let this := Sample.web_client in
  let w := Sample.signed_in_empty this in
  reachable (L := Sample.libs) this w /\
  result (getItem (L := Sample.libs) (storage this) "accessToken") w
    = Return (Some "") /\
  result (getUserInfo (L := Sample.libs) Sample.happy this) w
    = Throw (SalesforceAuthError not_authenticated) /\
  network (after (getUserInfo (L := Sample.libs) Sample.happy this) w)
    = network w.
Proof.
  intros this w. split.
  - exact (reach_signIn this Sample.empty_tokens empty_world (reach_init this)).
  - vm_compute. repeat split.
Qed.

(** C8 (amended).  With no access token stored, or an empty one,
    [getUserInfo] throws [not_authenticated] and the world (the request log
    included) is unchanged.  With a non-empty access token stored, exactly
    one request goes out: a GET to the userinfo endpoint whose only header
    is [Authorization: Bearer <token>]; a non-success response makes it
    throw [userinfo_request_failed], a success response is returned as the
    user info, and the store is untouched either way. *)
Theorem getUserInfo_outcome `{L : Libraries}
    (env : environment) (this : SalesforceAuthClient) (w : world) :
  let token := result (getItem (storage this) "accessToken") w in
  let w' := after (getUserInfo env this) w in
  (token = Return None \/ token = Return (Some "") ->
   getUserInfo env this w
   = (Throw (SalesforceAuthError not_authenticated), w)) /\
  (forall t,
      token = Return (Some t) -> t <> "" ->
      let req := mkRequest (userInfoEndpoint this) GET
                           [("Authorization", "Bearer " +:+ t)] [] in
      network w' = (network w ++ [req])%list /\
      same_store w w' /\
      result (getUserInfo env this) w =
        match fetch_userinfo env req with
        | Rejected => Throw FetchRejected
        | Response ok json =>
            if ok then Return json
            else Throw (SalesforceAuthError userinfo_request_failed)
        end).
Proof.
  intros token w'. subst token w'. rewrite getItem_result.
  unfold result, after. rewrite getUserInfo_run. split.
  - intros Hfalsy.
    assert (js_not (stored (storage this) "accessToken" w) = true) as ->
      by (apply js_not_true; destruct Hfalsy as [[= ->] | [= ->]]; auto).
    reflexivity.
  - intros t [= ->] Hne.
    assert (js_not (Some t) = false) as -> by (apply js_not_false; eauto).
    cbn [default]. cbn zeta. unfold userinfo_request.
    destruct (fetch_userinfo env _) as [| [|] json]; cbn [fst snd];
      (split; [reflexivity |]); (split; [| reflexivity]);
      apply same_store_set_network.
Qed.

Lemma getUserInfo_outcome_witness :
  let this := Sample.native_client in
  getUserInfo (L := Sample.libs) Sample.happy this empty_world
    = (Throw (SalesforceAuthError not_authenticated), empty_world) /\
  result (getUserInfo (L := Sample.libs) Sample.happy this)
         (Sample.signed_in this)
    = Return Sample.somebody /\
  network (after (getUserInfo (L := Sample.libs) Sample.happy this)
                 (Sample.signed_in this))
    = (network (Sample.signed_in this) ++
       [mkRequest "https://login.salesforce.com/services/oauth2/userinfo" GET
                  [("Authorization", "Bearer AT1")] []])%list.
Proof.
  intros this.
  destruct (getUserInfo_outcome (L := Sample.libs) Sample.happy this
              empty_world) as (Habsent & _).
  destruct (getUserInfo_outcome (L := Sample.libs) Sample.happy this
              (Sample.signed_in this)) as (_ & Hpresent).
  assert (result (getItem (L := Sample.libs) (storage this) "accessToken")
                 (Sample.signed_in this)
          = Return (Some "AT1")) as Htoken by (vm_compute; reflexivity).
  destruct (Hpresent "AT1" Htoken) as (Hnet & _ & Hres); [discriminate |].
  split; [| split].
  - apply Habsent. left. vm_compute. reflexivity.
  - exact Hres.
  - exact Hnet.
Defined.

(* ===================================================================== *)
(** * The scenarios of the specification, run on the samples *)
(* ===================================================================== *)

Example happy_path_web :
  let this := Sample.web_client in
  let w := Sample.signed_in this in
  result (signIn (L := Sample.libs) Sample.happy this) empty_world = Return tt /\
  result (isAuthenticated (L := Sample.libs) this) w = Return true /\
  result (getItem (L := Sample.libs) (storage this) "accessToken") w
    = Return (Some "AT1") /\
  result (getItem (L := Sample.libs) (storage this) "refreshToken") w
    = Return (Some "RT1") /\
  map req_url (network w)
    = ["https://login.salesforce.com/services/oauth2/token"].
Proof. vm_compute. repeat split. Qed.

Example happy_path_native :
  let this := Sample.native_client in
  let w := Sample.signed_in this in
  result (isAuthenticated (L := Sample.libs) this) w = Return true /\
  result (getItem (L := Sample.libs) (storage this) "accessToken") w
    = Return (Some "AT1") /\
  result (getItem (L := Sample.libs) (storage this) "refreshToken") w
    = Return (Some "RT1") /\
  AsyncStorage w !! "salesforce.C1.accessToken" <> Some "AT1" /\
  localStorage w = ∅.
Proof. vm_compute. repeat split; discriminate. Qed.

Example userinfo_without_session :
  getUserInfo (L := Sample.libs) Sample.happy Sample.web_client empty_world
  = (Throw (SalesforceAuthError not_authenticated), empty_world).
Proof. reflexivity. Qed.

(* ===================================================================== *)
(** * Further properties of the stores *)
(* ===================================================================== *)

Lemma occurs_append (c : ascii) (p rest : string) :
  occurs c (p +:+ String c rest) = true.
Proof.
  induction p as [| a p IH].
  - change ("" +:+ String c rest) with (String c rest).
    cbn. now rewrite Ascii.eqb_refl.
  - change (String a p +:+ String c rest) with (String a (p +:+ String c rest)).
    cbn. rewrite IH. apply orb_true_r.
Qed.

(** A prefix and a suffix joined by a separator that the suffix does not
    contain can be told apart again. *)
Lemma split_at_last_separator (c : ascii) (p1 p2 a b : string) :
  occurs c a = false -> occurs c b = false ->
  p1 +:+ String c a = p2 +:+ String c b ->
  p1 = p2 /\ a = b.
Proof.
  intros Ha Hb. revert p2.
  induction p1 as [| x p1 IH]; intros [| y p2] Heq.
  - now injection Heq.
  - change (String y p2 +:+ String c b) with (String y (p2 +:+ String c b)) in Heq.
    injection Heq as _ Heq. subst a. now rewrite occurs_append in Ha.
  - change (String x p1 +:+ String c a) with (String x (p1 +:+ String c a)) in Heq.
    injection Heq as _ Heq. subst b. now rewrite occurs_append in Hb.
  - change (String x p1 +:+ String c a) with (String x (p1 +:+ String c a)) in Heq.
    change (String y p2 +:+ String c b) with (String y (p2 +:+ String c b)) in Heq.
    injection Heq as -> Heq. destruct (IH p2 Heq) as [-> ->]. auto.
Qed.

Lemma PersistKey_value_plain (k : PersistKey) :
  occurs "." (PersistKey_value k) = false /\
  occurs ":" (PersistKey_value k) = false.
Proof. destruct k; split; reflexivity. Qed.

Lemma PersistKey_value_inj (k1 k2 : PersistKey) :
  PersistKey_value k1 = PersistKey_value k2 -> k1 = k2.
Proof. destruct k1, k2; cbn; congruence. Qed.

Lemma getStorageKey_split (id1 id2 k1 k2 : string) :
  occurs "." k1 = false -> occurs "." k2 = false ->
  SecureStorage.getStorageKey id1 k1 = SecureStorage.getStorageKey id2 k2 ->
  id1 = id2 /\ k1 = k2.
Proof. intros H1 H2. now apply split_at_last_separator. Qed.

Lemma getKey_split (appId1 appId2 k1 k2 : string) :
  occurs ":" k1 = false -> occurs ":" k2 = false ->
  BrowserStorage.getKey appId1 (Some k1) = BrowserStorage.getKey appId2 (Some k2) ->
  appId1 = appId2 /\ k1 = k2.
Proof.
  intros H1 H2 Heq. unfold BrowserStorage.getKey in Heq.
  do 2 apply append_right_inj in Heq.
  now apply split_at_last_separator in Heq.
Qed.

Lemma getKey_legacy_clash (appId1 appId2 k : string) :
  BrowserStorage.getKey appId1 (Some k) = BrowserStorage.getKey appId2 None ->
  appId2 = appId1 +:+ ":" +:+ k.
Proof.
  unfold BrowserStorage.getKey. intros Heq.
  now do 2 apply append_right_inj in Heq.
Qed.

Section OtherStore.
Context `{L : Libraries}.
Variables s1 s2 : Storage.
Variables k1 k2 : string.
Hypothesis k1_plain : occurs "." k1 = false /\ occurs ":" k1 = false.
Hypothesis k2_plain : occurs "." k2 = false /\ occurs ":" k2 = false.
Hypothesis different : s1 <> s2.
Hypothesis no_clash : ~ legacy_clash s1 s2.

Lemma other_store_keys_differ :
  match s1, s2 with
  | NewSecureStorage id1, NewSecureStorage id2 =>
      SecureStorage.getStorageKey id1 k1 <> SecureStorage.getStorageKey id2 k2
  | NewBrowserStorage a1, NewBrowserStorage a2 =>
      BrowserStorage.getKey a1 (Some k1) <> BrowserStorage.getKey a2 (Some k2) /\
      (k1 = "signInSession" ->
       BrowserStorage.getKey a1 (Some k1) <> BrowserStorage.getKey a2 None)
  | _, _ => True
  end.
Proof.
  destruct k1_plain as [Hd1 Hc1], k2_plain as [Hd2 Hc2].
  destruct s1 as [id1 | a1], s2 as [id2 | a2]; try exact I.
  - intros Heq. apply getStorageKey_split in Heq as [-> _]; auto.
  - split.
    + intros Heq. apply getKey_split in Heq as [-> _]; auto.
    + intros -> Heq. apply getKey_legacy_clash in Heq. now apply no_clash.
Qed.

Lemma stored_setItem_other_store (v : string) (w : world) :
  stored s2 k2 (after (setItem s1 k1 v) w) = stored s2 k2 w.
Proof.
  pose proof other_store_keys_differ as Hkeys.
  destruct s1 as [id1 | a1], s2 as [id2 | a2]; unfold after, setItem.
  - rewrite SecureStorage_setItem_run, !stored_secure. cbn.
    now rewrite !lookup_insert_ne.
  - now rewrite SecureStorage_setItem_run, !stored_browser.
  - rewrite BrowserStorage_setItem_run, !stored_secure. cbn.
    now destruct (String.eqb k1 _).
  - destruct Hkeys as [Hne Hlegacy].
    rewrite BrowserStorage_setItem_run, !stored_browser. cbn.
    destruct (String.eqb_spec k1 "signInSession") as [Hk1 | Hk1],
             (String.eqb_spec k2 "signInSession") as [Hk2 | Hk2]; cbn;
      try reflexivity.
    + now rewrite !lookup_insert_ne by auto.
    + now rewrite lookup_insert_ne.
Qed.

Lemma stored_removeItem_other_store (w : world) :
  stored s2 k2 (after (removeItem s1 k1) w) = stored s2 k2 w.
Proof.
  pose proof other_store_keys_differ as Hkeys.
  destruct s1 as [id1 | a1], s2 as [id2 | a2]; unfold after, removeItem.
  - rewrite SecureStorage_removeItem_run, !stored_secure. cbn.
    now rewrite !lookup_delete_ne.
  - now rewrite SecureStorage_removeItem_run, !stored_browser.
  - rewrite BrowserStorage_removeItem_run, !stored_secure. cbn.
    now destruct (String.eqb k1 _).
  - destruct Hkeys as [Hne Hlegacy].
    rewrite BrowserStorage_removeItem_run, !stored_browser. cbn.
    destruct (String.eqb_spec k1 "signInSession") as [Hk1 | Hk1],
             (String.eqb_spec k2 "signInSession") as [Hk2 | Hk2]; cbn;
      try reflexivity.
    + now rewrite !lookup_delete_ne by auto.
    + now rewrite lookup_delete_ne.
Qed.

End OtherStore.

(** X1.  Two different store instances do not interfere on the keys of
    [PersistKey]: whatever one of them writes or removes, the other reads
    what it read before -- unless both are browser stores and the reader's
    application id is the writer's followed by [:signInSession]. *)
Theorem stores_do_not_interfere `{L : Libraries} (s1 s2 : Storage)
    (k1 k2 : PersistKey) (value : string) (w : world) :
  s1 <> s2 ->
  ~ legacy_clash s1 s2 ->
  result (getItem s2 (PersistKey_value k2))
         (after (setItem s1 (PersistKey_value k1) value) w)
    = result (getItem s2 (PersistKey_value k2)) w /\
  result (getItem s2 (PersistKey_value k2))
         (after (removeItem s1 (PersistKey_value k1)) w)
    = result (getItem s2 (PersistKey_value k2)) w.
Proof.
  intros Hdiff Hclash. rewrite !getItem_result.
  split; f_equal.
  - apply stored_setItem_other_store;
      auto using PersistKey_value_plain.
  - apply stored_removeItem_other_store;
      auto using PersistKey_value_plain.
Qed.

Lemma stores_do_not_interfere_witness :
  let s1 := storage Sample.native_client in
  let s2 := NewSecureStorage "salesforce.C2" in
  result (getItem (L := Sample.libs) s2 "accessToken")
         (after (setItem (L := Sample.libs) s1 "accessToken" "AT1") empty_world)
    = result (getItem (L := Sample.libs) s2 "accessToken") empty_world.
Proof.
  intros s1 s2.
  refine (proj1 (stores_do_not_interfere (L := Sample.libs) s1 s2
                   AccessToken AccessToken "AT1" empty_world _ _)).
  - discriminate.
  - intros [].
Defined.

(** X2.  The exception of X1 is real: what the browser store of
    application [appId] writes under [signInSession] is what the browser
    store of application [appId:signInSession] reads under
    [signInSession], as long as that one has no entry of its own. *)
Theorem signInSession_read_by_suffixed_application `{L : Libraries}
    (appId value : string) (w : world) :
  let writer := NewBrowserStorage appId in
  let reader := NewBrowserStorage (appId +:+ ":signInSession") in
  sessionStorage w
    !! BrowserStorage.getKey (appId +:+ ":signInSession") (Some "signInSession")
    = None ->
  result (getItem reader "signInSession")
         (after (setItem writer "signInSession" value) w)
    = Return (Some value).
Proof.
  intros writer reader Hnone. subst writer reader.
  rewrite getItem_result. f_equal. unfold after, setItem.
  rewrite BrowserStorage_setItem_run, stored_browser.
  unfold BrowserStorage.getKey in *. cbn.
  change (":" +:+ "signInSession") with ":signInSession" in *.
  rewrite lookup_insert_eq, lookup_insert_ne.
  - now rewrite Hnone.
  - intros Heq. do 2 apply append_right_inj in Heq.
    symmetry in Heq. now apply append_right_neq in Heq.
Qed.

Lemma signInSession_read_by_suffixed_application_witness :
  result (getItem (L := Sample.libs) (NewBrowserStorage "C1:signInSession")
            "signInSession")
         (after (setItem (L := Sample.libs) (NewBrowserStorage "C1")
                   "signInSession" "nonce") empty_world)
    = Return (Some "nonce").
Proof.
  exact (signInSession_read_by_suffixed_application (L := Sample.libs)
           "C1" "nonce" empty_world eq_refl).
Defined.


Lemma run_ops_cons `{L : Libraries} (s : Storage) (op : store_op)
    (ops : list store_op) (w : world) :
  after (run_ops s (op :: ops)) w
  = after (run_ops s ops)
      match op with
      | SetItem key value => after (setItem s key value) w
      | RemoveItem key => after (removeItem s key) w
      | GetItem _ => w
      end.
Proof.
  unfold after. cbn [run_ops]. unfold bind.
  destruct op as [k v | k | k]; cbn [run_op].
  - now rewrite setItem_eta.
  - now rewrite removeItem_eta.
  - unfold bind. now rewrite getItem_run.
Qed.

(** X4.  The secure store keeps ciphertexts and encryption keys paired:
    if the two media hold entries under the same keys before a history of
    store calls, they do so after it. *)
Theorem SecureStorage_entries_stay_paired `{L : Libraries} (id : string)
    (ops : list store_op) (w : world) :
  dom (AsyncStorage w) = dom (SecureStore w) ->
  dom (AsyncStorage (after (run_ops (NewSecureStorage id) ops) w))
  = dom (SecureStore (after (run_ops (NewSecureStorage id) ops) w)).
Proof.
  revert w. induction ops as [| op ops IH]; intros w Hpaired; [exact Hpaired |].
  rewrite run_ops_cons. apply IH.
  destruct op as [k v | k | k]; [| | exact Hpaired]; unfold after.
  - cbn [setItem]. rewrite SecureStorage_setItem_run. cbn.
    now rewrite !dom_insert_L, Hpaired.
  - cbn [removeItem]. rewrite SecureStorage_removeItem_run. cbn.
    now rewrite !dom_delete_L, Hpaired.
Qed.

Lemma SecureStorage_entries_stay_paired_witness :
  let w := after (run_ops (L := Sample.libs) (NewSecureStorage "salesforce.C1")
                    [SetItem "accessToken" "AT1"; SetItem "refreshToken" "RT1";
                     RemoveItem "accessToken"]) empty_world in
  dom (AsyncStorage w) = dom (SecureStore w).
Proof.
  intros w.
  exact (SecureStorage_entries_stay_paired (L := Sample.libs) "salesforce.C1"
           _ empty_world eq_refl).
Defined.

(** X5.  What the secure store puts into the secure element does not
    depend on the values written: a history and the same history with
    every value blanked out leave the same secure-element content (and the
    same number of random draws). *)
Theorem secure_element_blind_to_values `{L : Libraries} (id : string)
    (ops : list store_op) (w : world) :
  let s := NewSecureStorage id in
  SecureStore (after (run_ops s ops) w)
    = SecureStore (after (run_ops s (map erase_value ops)) w) /\
  entropy (after (run_ops s ops) w)
    = entropy (after (run_ops s (map erase_value ops)) w).
Proof.
  cbn zeta.
  enough (forall w1 w2,
             SecureStore w1 = SecureStore w2 -> entropy w1 = entropy w2 ->
             SecureStore (after (run_ops (NewSecureStorage id) ops) w1)
             = SecureStore (after (run_ops (NewSecureStorage id)
                                     (map erase_value ops)) w2) /\
             entropy (after (run_ops (NewSecureStorage id) ops) w1)
             = entropy (after (run_ops (NewSecureStorage id)
                                 (map erase_value ops)) w2)) as Hgen
    by now apply Hgen.
  induction ops as [| op ops IH]; intros w1 w2 Hs He; [now split |].
  cbn [map]. rewrite !run_ops_cons.
  destruct op as [k v | k | k]; cbn [erase_value]; apply IH; auto;
    unfold after; cbn [setItem removeItem];
    rewrite ?SecureStorage_setItem_run, ?SecureStorage_removeItem_run; cbn;
    congruence.
Qed.

(* ===================================================================== *)
(** * Further properties of the client *)
(* ===================================================================== *)

Section ClientSteps.
Context `{L : Libraries}.
Variable env : environment.
Variable this : SalesforceAuthClient.

Lemma exchange_token_writes (code codeVerifier redirect : string)
    (w0 w : world) :
  token_writes (storage this) w0 w ->
  token_writes (storage this) w0
    (after (exchangeCodeForToken env this code codeVerifier redirect) w).
Proof.
  intros Hw. unfold after. rewrite exchangeCodeForToken_run. cbn zeta.
  pose proof (tw_same (storage this) _ _ _ Hw
                (same_store_set_network
                   (network w ++ [token_request this code codeVerifier redirect])
                   w)) as Hlogged.
  destruct (fetch_token env _) as [| ok data]; [exact Hlogged |].
  destruct ok; [| exact Hlogged]. cbn [snd].
  assert (token_writes (storage this) w0
            (after (setItem (storage this) "accessToken" (access_token data))
               (set_network
                  (network w ++ [token_request this code codeVerifier redirect])
                  w))) as Haccess
    by (apply tw_setItem; auto).
  destruct (refresh_token data) as [refresh |]; [| exact Haccess].
  destruct (truthy refresh); [| exact Haccess].
  apply tw_setItem; auto.
Qed.

Lemma signIn_token_writes (w : world) :
  token_writes (storage this) w (after (signIn env this) w).
Proof.
  unfold after. rewrite signIn_run.
  pose proof (tw_same (storage this) _ _ _ (tw_refl _ w)
                (same_store_signIn_resumed env this w)) as Hresumed.
  destruct (openAuthSessionAsync env _) as [url | | | |]; try exact Hresumed.
  destruct (js_not _ || _); [exact Hresumed |].
  now apply exchange_token_writes.
Qed.

Lemma signOut_token_writes (w : world) :
  token_writes (storage this) w (after (signOut env this) w).
Proof.
  unfold after. rewrite signOut_run.
  destruct (js_not _); [apply tw_refl |]. cbn zeta.
  pose proof (tw_same (storage this) _ _ _ (tw_refl _ w)
                (same_store_set_network
                   (network w ++
                    [revoke_request this
                       (default "" (stored (storage this) "accessToken" w))])
                   w)) as Hlogged.
  destruct (fetch_revoke env _); cbn [snd]; [exact Hlogged |].
  apply tw_removeItem; auto. apply tw_removeItem; auto.
Qed.

Lemma getUserInfo_same_store (w : world) :
  same_store w (after (getUserInfo env this) w).
Proof.
  unfold after. rewrite getUserInfo_run.
  destruct (js_not _); [apply same_store_refl |]. cbn zeta.
  destruct (fetch_userinfo env _) as [| [|] ?];
    apply same_store_set_network.
Qed.

Lemma isAuthenticated_same_world (w : world) :
  after (isAuthenticated this) w = w.
Proof. unfold after. now rewrite isAuthenticated_run. Qed.

End ClientSteps.

(** An invariant of the store that the writes and removals of the two
    token items keep holds in every reachable world. *)
Lemma reachable_store_invariant `{L : Libraries} (this : SalesforceAuthClient)
    (P : world -> Prop) :
  P empty_world ->
  (forall w w', same_store w w' -> P w -> P w') ->
  (forall key value w,
      key = "accessToken" \/ key = "refreshToken" ->
      P w -> P (after (setItem (storage this) key value) w)) ->
  (forall key w,
      key = "accessToken" \/ key = "refreshToken" ->
      P w -> P (after (removeItem (storage this) key) w)) ->
  forall w, reachable this w -> P w.
Proof.
  intros Hinit Hsame Hset Hremove.
  assert (forall w w', token_writes (storage this) w w' -> P w -> P w') as Hstep.
  { intros w w' Hw HP. induction Hw; eauto. }
  induction 1 as [| env w Hreach IH | env w Hreach IH | env w Hreach IH
                  | w Hreach IH].
  - exact Hinit.
  - eapply Hstep; [apply signIn_token_writes | exact IH].
  - eapply Hstep; [apply signOut_token_writes | exact IH].
  - eapply Hsame; [apply getUserInfo_same_store | exact IH].
  - now rewrite isAuthenticated_same_world.
Qed.








Section Requests.
Context `{L : Libraries}.
Variable env : environment.
Variable this : SalesforceAuthClient.
Variable w : world.

(** What each operation adds to the request log. *)
Lemma signIn_requests :
  network (after (signIn env this) w) = network w \/
  exists code,
    network (after (signIn env this) w)
    = (network w ++ [token_request this code (signIn_codeVerifier w)
                       (signIn_redirectUri env this)])%list.
Proof.
  unfold after. rewrite signIn_run.
  destruct (openAuthSessionAsync env _) as [url | | | |]; auto.
  destruct (js_not _ || _); auto.
  right. eexists.
  exact (exchange_network env this _ _ _ (signIn_resumed env this w)).
Qed.

Lemma signOut_requests :
  network (after (signOut env this) w) = network w \/
  exists token,
    network (after (signOut env this) w)
    = (network w ++ [revoke_request this token])%list.
Proof.
  unfold after. rewrite signOut_run.
  destruct (js_not _); auto. cbn zeta. right. eexists.
  destruct (fetch_revoke env _); cbn [snd]; [reflexivity |].
  now rewrite (proj1 (removeItem_frame _ _ _)), (proj1 (removeItem_frame _ _ _)).
Qed.

Lemma getUserInfo_requests :
  network (after (getUserInfo env this) w) = network w \/
  exists token,
    network (after (getUserInfo env this) w)
    = (network w ++ [userinfo_request this token])%list.
Proof.
  unfold after. rewrite getUserInfo_run.
  destruct (js_not _); auto. cbn zeta. right. eexists.
  now destruct (fetch_userinfo env _) as [| [|] ?].
Qed.

End Requests.

Lemma reachable_requests `{L : Libraries} (this : SalesforceAuthClient)
    (w : world) :
  reachable this w -> Forall (client_request this) (network w).
Proof.
  induction 1 as [| env w Hreach IH | env w Hreach IH | env w Hreach IH
                  | w Hreach IH].
  - constructor.
  - destruct (signIn_requests env this w) as [-> | [code ->]]; [exact IH |].
    apply Forall_app. split; [exact IH |]. constructor; [| constructor].
    left. eauto.
  - destruct (signOut_requests env this w) as [-> | [token ->]]; [exact IH |].
    apply Forall_app. split; [exact IH |]. constructor; [| constructor].
    right. left. eauto.
  - destruct (getUserInfo_requests env this w) as [-> | [token ->]];
      [exact IH |].
    apply Forall_app. split; [exact IH |]. constructor; [| constructor].
    right. right. eauto.
  - now rewrite isAuthenticated_same_world.
Qed.

(** X7.  Every request a client built by the constructor ever sends goes
    to the host its [sandbox] flag selects: a POST to that host's token or
    revocation endpoint or a GET to its userinfo endpoint, and nothing
    else. *)
Theorem requests_go_to_the_selected_host `{L : Libraries}
    (Platform_OS : string) (cfg : Config) (w : world) (r : request) :
  reachable (new_SalesforceAuthClient Platform_OS cfg) w ->
  In r (network w) ->
  (req_url r = "https://" +:+ oauth_host cfg +:+ "/services/oauth2/token" /\
   req_method r = POST) \/
  (req_url r = "https://" +:+ oauth_host cfg +:+ "/services/oauth2/revoke" /\
   req_method r = POST) \/
  (req_url r = "https://" +:+ oauth_host cfg +:+ "/services/oauth2/userinfo" /\
   req_method r = GET).
Proof.
  intros Hreach Hin.
  apply reachable_requests in Hreach.
  rewrite Forall_forall in Hreach. apply list_elem_of_In in Hin.
  destruct (Hreach r Hin)
    as [(c & v & u & ->) | [(t & ->) | (t & ->)]]; auto.
Qed.

Lemma requests_go_to_the_selected_host_witness :
  let r := token_request Sample.web_client "ABC123"
             (signIn_codeVerifier (L := Sample.libs) empty_world) "app://cb" in
  (req_url r = "https://login.salesforce.com/services/oauth2/token" /\
   req_method r = POST) \/
  (req_url r = "https://login.salesforce.com/services/oauth2/revoke" /\
   req_method r = POST) \/
  (req_url r = "https://login.salesforce.com/services/oauth2/userinfo" /\
   req_method r = GET).
Proof.
  intros r.
  refine (requests_go_to_the_selected_host (L := Sample.libs) "web" Sample.cfg
            (Sample.signed_in Sample.web_client) r _ _).
  - exact (reach_signIn Sample.web_client Sample.happy empty_world
             (reach_init Sample.web_client)).
  - vm_compute. left. reflexivity.
Defined.

Lemma searchParams_get_app (key : string) (l1 l2 : URLSearchParams) :
  searchParams_get key (l1 ++ l2)%list
  = match searchParams_get key l1 with
    | Some v => Some v
    | None => searchParams_get key l2
    end.
Proof.
  induction l1 as [| [k v] l1 IH]; [reflexivity |]. cbn.
  now destruct (String.eqb k key).
Qed.

(** X8.  The PKCE pairing of one [signIn]: it opens exactly one
    authorization session, at the client's authorization endpoint, asking
    for a code with method S256, carrying neither the verifier nor the
    client secret; and if a request goes to the token endpoint at all, it
    is a single one whose [code_verifier] hashes (S256) to the
    [code_challenge] of that session and whose [redirect_uri] and
    [client_id] are the session's. *)
Theorem signIn_pairs_verifier_with_challenge `{L : Libraries}
    (env : environment) (this : SalesforceAuthClient) (w : world) :
  let w' := after (signIn env this) w in
  exists a,
    sessions w' = (sessions w ++ [a])%list /\
    auth_endpoint a = authEndpoint this /\
    auth_redirectUri a = default (makeRedirectUri env "myapp")
                                 (redirectUri (config this)) /\
    searchParams_get "response_type" (auth_params a) = Some "code" /\
    searchParams_get "code_challenge_method" (auth_params a) = Some "S256" /\
    searchParams_get "code_verifier" (auth_params a) = None /\
    searchParams_get "client_secret" (auth_params a) = None /\
    (network w' = network w \/
     exists r verifier,
       network w' = (network w ++ [r])%list /\
       req_url r = tokenEndpoint this /\
       searchParams_get "grant_type" (req_body r) = Some "authorization_code" /\
       searchParams_get "code_verifier" (req_body r) = Some verifier /\
       searchParams_get "code_challenge" (auth_params a) = Some (S256 verifier) /\
       searchParams_get "redirect_uri" (req_body r) = Some (auth_redirectUri a) /\
       searchParams_get "redirect_uri" (auth_params a) = Some (auth_redirectUri a) /\
       searchParams_get "client_id" (req_body r)
         = searchParams_get "client_id" (auth_params a)).
Proof.
  cbn zeta. exists (signIn_request env this w).
  split; [apply signIn_sessions |].
  repeat (split; [reflexivity |]).
  destruct (signIn_requests env this w) as [Hnone | [code Hone]]; [now left |].
  right. exists (token_request this code (signIn_codeVerifier w)
                   (signIn_redirectUri env this)), (signIn_codeVerifier w).
  split; [exact Hone |]. repeat split.
Qed.

(** X9.  [signIn] redeems a code only after the state check: if it sends
    anything, then the browser step had resolved with success, the
    redirect's [state] was the one sent in the authorization session, its
    [code] was not empty, and that code is the one in the single request
    sent. *)
Theorem signIn_redeems_only_checked_codes `{L : Libraries}
    (env : environment) (this : SalesforceAuthClient) (w : world) :
  let w' := after (signIn env this) w in
  network w' <> network w ->
  exists a url code r,
    sessions w' = (sessions w ++ [a])%list /\
    authSessionResult w' = Some (success url) /\
    searchParams_get "state" url = searchParams_get "state" (auth_params a) /\
    searchParams_get "code" url = Some code /\
    code <> "" /\
    network w' = (network w ++ [r])%list /\
    req_url r = tokenEndpoint this /\
    searchParams_get "code" (req_body r) = Some code.
Proof.
  cbn zeta. intros Hsent.
  pose proof (signIn_sessions env this w) as Hsessions.
  unfold after in *. rewrite signIn_run in *.
  destruct (openAuthSessionAsync env (signIn_request env this w))
    as [url | | | |] eqn:Hbrowser; try (now contradiction Hsent).
  destruct (js_not _ || _) eqn:Hguard; [now contradiction Hsent |].
  apply orb_false_iff in Hguard as [Hcode Hstate].
  apply js_not_false in Hcode as (code & Hcode & Hne).
  apply negb_false_iff in Hstate.
  destruct (searchParams_get "state" url) as [st |] eqn:Hst; [| discriminate].
  apply String.eqb_eq in Hstate. subst st.
  rewrite Hcode in *. cbn [default] in *.
  exists (signIn_request env this w), url, code,
    (token_request this code (signIn_codeVerifier w) (signIn_redirectUri env this)).
  split; [exact Hsessions |].
  pose proof (exchange_network env this code (signIn_codeVerifier w)
                (signIn_redirectUri env this) (signIn_resumed env this w))
    as Hnet. unfold after in Hnet.
  repeat split; auto.
  rewrite exchangeCodeForToken_run. cbn zeta.
  destruct (fetch_token env _) as [| ok data];
    [unfold signIn_resumed; cbn; now rewrite Hbrowser |].
  destruct ok; [| unfold signIn_resumed; cbn; now rewrite Hbrowser].
  cbn [snd].
  destruct (refresh_token data) as [refresh |];
    [destruct (truthy refresh) |];
    repeat rewrite (proj2 (setItem_frame _ _ _ _));
    unfold signIn_resumed; cbn; now rewrite Hbrowser.
Qed.

Lemma signIn_redeems_only_checked_codes_witness :
  let w' := Sample.signed_in Sample.web_client in
  exists a url code r,
    sessions w' = [a] /\
    authSessionResult w' = Some (success url) /\
    searchParams_get "state" url = searchParams_get "state" (auth_params a) /\
    searchParams_get "code" url = Some code /\
    code <> "" /\
    network w' = [r] /\
    req_url r = tokenEndpoint Sample.web_client /\
    searchParams_get "code" (req_body r) = Some code.
Proof.
  refine (signIn_redeems_only_checked_codes (L := Sample.libs) Sample.happy
            Sample.web_client empty_world _).
  vm_compute. discriminate.
Defined.

(** X10.  The client secret goes into the bodies of the token and the
    revocation requests exactly when it is configured and not the empty
    string; the userinfo request has no body and a single header. *)
Theorem client_secret_sent_when_set (this : SalesforceAuthClient)
    (code codeVerifier redirect token : string) :
  let sent :=
    match clientSecret (config this) with
    | Some secret => if String.eqb secret "" then None else Some secret
    | None => None
    end in
  searchParams_get "client_secret"
    (req_body (token_request this code codeVerifier redirect)) = sent /\
  searchParams_get "client_secret" (req_body (revoke_request this token)) = sent /\
  req_body (userinfo_request this token) = [] /\
  map fst (req_headers (userinfo_request this token)) = ["Authorization"].
Proof.
  cbn zeta. unfold token_request, revoke_request, client_secret_param. cbn.
  destruct (clientSecret (config this)) as [secret |]; [| now repeat split].
  unfold truthy. destruct (String.eqb secret ""); now repeat split.
Qed.

(** X11.  After a [signOut] that resolved, the client is signed out for
    its own purposes: [isAuthenticated] answers false and [getUserInfo]
    throws [not_authenticated] without sending anything. *)
Theorem resolved_signOut_ends_session `{L : Libraries}
    (env : environment) (this : SalesforceAuthClient) (w : world) :
  let w' := after (signOut env this) w in
  result (signOut env this) w = Return tt ->
  result (isAuthenticated this) w' = Return false /\
  forall env',
    getUserInfo env' this w'
    = (Throw (SalesforceAuthError not_authenticated), w').
Proof.
  cbn zeta. intros Hres.
  assert (js_not (stored (storage this) "accessToken"
                    (after (signOut env this) w)) = true) as Hjs.
  { unfold result, after in *. rewrite signOut_run in *.
    destruct (js_not (stored (storage this) "accessToken" w)) eqn:Hw;
      [exact Hw |].
    cbn zeta in *. destruct (fetch_revoke env _); [discriminate |]. cbn [snd].
    rewrite stored_removeItem_ne by discriminate.
    now rewrite stored_removeItem_eq by discriminate. }
  split.
  - unfold result. rewrite isAuthenticated_run. cbn. now rewrite Hjs.
  - intros env'. now rewrite getUserInfo_run, Hjs.
Qed.

Lemma resolved_signOut_ends_session_witness :
  let this := Sample.native_client in
  let w' := after (signOut (L := Sample.libs) Sample.happy this)
                  (Sample.signed_in this) in
  result (isAuthenticated (L := Sample.libs) this) w' = Return false /\
  forall env',
    getUserInfo (L := Sample.libs) env' this w'
    = (Throw (SalesforceAuthError not_authenticated), w').
Proof.
  refine (resolved_signOut_ends_session (L := Sample.libs) Sample.happy
            Sample.native_client (Sample.signed_in Sample.native_client) _).
  vm_compute. reflexivity.
Defined.

(** X12.  After a [signIn] that resolved, the store holds the access token
    of a success response that the token endpoint gave to a request of this
    very call; if that token is not empty, [isAuthenticated] answers true
    and the next [getUserInfo] sends exactly that token as its bearer. *)
Theorem resolved_signIn_starts_session `{L : Libraries} `{Lok : !LibrariesOk L}
    (env : environment) (this : SalesforceAuthClient) (w : world) :
  let w' := after (signIn env this) w in
  result (signIn env this) w = Return tt ->
  exists r data,
    network w' = (network w ++ [r])%list /\
    fetch_token env r = Response true data /\
    result (getItem (storage this) "accessToken") w'
      = Return (Some (access_token data)) /\
    (access_token data <> "" ->
     result (isAuthenticated this) w' = Return true /\
     forall env',
       network (after (getUserInfo env' this) w')
       = (network w' ++ [userinfo_request this (access_token data)])%list).
Proof.
  cbn zeta. intros Hres. rewrite signIn_result in Hres.
  unfold after. rewrite signIn_run.
  destruct (openAuthSessionAsync env _) as [url | | | |]; try discriminate.
  destruct (js_not _ || _); [discriminate |].
  destruct (fetch_token env _) as [| ok data] eqn:Hresp; [discriminate |].
  destruct ok; [| discriminate].
  destruct (exchange_ok_access env this _ _ _ (signIn_resumed env this w)
              data Hresp) as [_ Haccess].
  pose proof (exchange_network env this
                (default "" (searchParams_get "code" url))
                (signIn_codeVerifier w) (signIn_redirectUri env this)
                (signIn_resumed env this w)) as Hnet.
  unfold after in *.
  eexists _, data. split; [exact Hnet |]. split; [exact Hresp |].
  rewrite getItem_result. split; [now rewrite Haccess |].
  intros Hne.
  assert (js_not (Some (access_token data)) = false) as Hjs
    by (apply js_not_false; eauto).
  split.
  - unfold result. rewrite isAuthenticated_run, Haccess, Hjs. reflexivity.
  - intros env'. rewrite getUserInfo_run, Haccess, Hjs. cbn zeta.
    now destruct (fetch_userinfo env' _) as [| [|] ?].
Qed.

Lemma resolved_signIn_starts_session_witness :
  let this := Sample.native_client in
  let w' := Sample.signed_in this in
  exists r data,
    network w' = [r] /\
    fetch_token Sample.happy r = Response true data /\
    result (getItem (L := Sample.libs) (storage this) "accessToken") w'
      = Return (Some (access_token data)) /\
    (access_token data <> "" ->
     result (isAuthenticated (L := Sample.libs) this) w' = Return true /\
     forall env',
       network (after (getUserInfo (L := Sample.libs) env' this) w')
       = (network w' ++ [userinfo_request this (access_token data)])%list).
Proof.
  refine (resolved_signIn_starts_session (L := Sample.libs)
            (Lok := Sample_libs_ok) Sample.happy Sample.native_client
            empty_world _).
  vm_compute. reflexivity.
Defined.


(* ===================================================================== *)
(** * Properties of the UI binding *)
(* ===================================================================== *)

Section ResolvedCalls.
Context `{L : Libraries}.
Variable env : environment.
Variable this : SalesforceAuthClient.
Variable w : world.

Lemma signIn_resolved_token `{Lok : !LibrariesOk L} :
  result (signIn env this) w = Return tt ->
  exists r data,
    fetch_token env r = Response true data /\
    stored (storage this) "accessToken" (after (signIn env this) w)
    = Some (access_token data).
Proof.
  intros Hres. rewrite signIn_result in Hres.
  unfold after. rewrite signIn_run.
  destruct (openAuthSessionAsync env _) as [url | | | |]; try discriminate.
  destruct (js_not _ || _); [discriminate |].
  destruct (fetch_token env _) as [| ok data] eqn:Hresp; [discriminate |].
  destruct ok; [| discriminate].
  destruct (exchange_ok_access env this _ _ _ (signIn_resumed env this w)
              data Hresp) as [_ Haccess].
  eauto.
Qed.



End ResolvedCalls.

Section UiSteps.
Context `{L : Libraries}.
Variable client : SalesforceAuthClient.





End UiSteps.


Lemma Sample_happy_issues_tokens : issues_tokens Sample.happy.
Proof. intros r data [= <-]. discriminate. Qed.


(** X15.  Without that proviso the flag can part from the client: when
    the hook's [signIn] goes through on a token endpoint whose success
    responses carry an empty access token, the hook resolves and sets the
    flag, while [client.isAuthenticated()] answers false. *)
Theorem ui_flag_set_on_empty_access_token
    `{L : Libraries} `{Lok : !LibrariesOk L}
    (env : environment) (client : SalesforceAuthClient)
    (w : world) (u : ui) :
  let run := useSalesforceAuth.signIn env client (w, u) in
  (forall r data,
      fetch_token env r = Response true data -> access_token data = "") ->
  result (signIn env client) w = Return tt ->
  fst run = Return tt /\
  ui_isAuthenticated (snd (snd run)) = true /\
  result (isAuthenticated client) (fst (snd run)) = Return false.
Proof.
  cbn zeta. intros Hempty Hres.
  destruct (signIn_resolved_token env client w Hres)
    as (r & data & Hresp & Haccess).
  rewrite (Hempty r data Hresp) in Haccess.
  unfold useSalesforceAuth.signIn, ui_bind, ui_lift, setIsAuthenticated.
  cbn [fst snd]. unfold result, after in *.
  destruct (signIn env client w) as [[[] | e] w']; cbn [fst snd] in *;
    [| discriminate].
  repeat split. rewrite isAuthenticated_run, Haccess. reflexivity.
Qed.

Lemma ui_flag_set_on_empty_access_token_witness :
  let run := useSalesforceAuth.signIn (L := Sample.libs) Sample.empty_tokens
               Sample.web_client (empty_world, ui_initial) in
  fst run = Return tt /\
  ui_isAuthenticated (snd (snd run)) = true /\
  result (isAuthenticated (L := Sample.libs) Sample.web_client) (fst (snd run))
    = Return false.
Proof.
  refine (ui_flag_set_on_empty_access_token (L := Sample.libs)
            (Lok := Sample_libs_ok) Sample.empty_tokens Sample.web_client
            empty_world ui_initial _ _).
  - intros r data [= <-]. reflexivity.
  - vm_compute. reflexivity.
Defined.

(* ===================================================================== *)
(** * Properties of the REST client *)
(* ===================================================================== *)

Section RestCalls.
Import SalesforceRestClient.
Variables J D : Type.
Variable JSON_stringify : D -> string.
Variable encodeURIComponent : string -> string.
Variable config : SalesforceRestConfig.
Variable getAccessToken : async (option string).
Variable rest_fetch : rest_request -> option (rest_response J).

Lemma getHeaders_run (st : world * list rest_request) :
  getHeaders getAccessToken st =
  match getAccessToken (fst st) with
  | (Return token, w') =>
      if js_not token
      then (Failed (Propagated (SalesforceAuthError not_authenticated)),
            (w', snd st))
      else (Resolved [("Authorization", "Bearer " +:+ default "" token);
                      ("Content-Type", "application/json")],
            (w', snd st))
  | (Throw e, w') => (Failed (Propagated e), (w', snd st))
  end.
Proof.
  unfold getHeaders, rest_bind, call_getAccessToken.
  destruct (getAccessToken (fst st)) as [[token | e] w']; [| reflexivity].
  now destruct (js_not token).
Qed.

(** X16.  Without a token -- the getter resolves with null or with the
    empty string -- every method of the REST client ([query], [create],
    [update], [delete], [retrieve]) throws [not_authenticated] and sends
    nothing. *)
Theorem rest_call_without_token (c : rest_call D) (w w' : world)
    (token : option string) (log : list rest_request) :
  getAccessToken w = (Return token, w') ->
  token = None \/ token = Some "" ->
  run_call J D JSON_stringify encodeURIComponent config
           getAccessToken rest_fetch c (w, log)
  = (Failed (Propagated (SalesforceAuthError not_authenticated)), (w', log)).
Proof.
  intros Hget Hfalsy. apply js_not_true in Hfalsy.
  destruct c; cbn [run_call]; unfold forget, query, create, update,
    SalesforceRestClient.delete, retrieve, rest_bind;
    rewrite getHeaders_run; cbn [fst snd]; rewrite Hget, Hfalsy; reflexivity.
Qed.

(** X17.  With a non-empty token, every method of the REST client sends
    exactly one request: to a URL under the base URL, with the method of
    the call, the token as bearer and JSON as content type, and a body
    (the stringified data) for [create] and [update] only.  If [fetch]
    rejects, the rejection propagates; on a non-success response the call
    throws a plain [Error] whose message is the method's name, [ failed: ]
    and the status text; otherwise it resolves, with the parsed JSON for
    [query], [create] and [retrieve]. *)
Theorem rest_call_with_token (c : rest_call D) (w w' : world) (t : string)
    (log : list rest_request) :
  let run := run_call J D JSON_stringify encodeURIComponent config
               getAccessToken rest_fetch in
  getAccessToken w = (Return (Some t), w') ->
  t <> "" ->
  exists r path,
    snd (run c (w, log)) = (w', (log ++ [r])%list) /\
    rest_headers r = [("Authorization", "Bearer " +:+ t);
                      ("Content-Type", "application/json")] /\
    rest_verb r = call_verb c /\
    rest_body r = option_map JSON_stringify (call_data c) /\
    rest_url r = baseUrl config +:+ path /\
    fst (run c (w, log)) =
      match rest_fetch r with
      | None => Failed (Propagated FetchRejected)
      | Some response =>
          if rest_ok response then
            Resolved match c with
                     | Update _ _ _ | Delete _ _ => None
                     | _ => Some (rest_json response)
                     end
          else Failed (Error (call_label c +:+ " failed: "
                              +:+ rest_statusText response))
      end.
Proof.
  intros run Hget Hne. subst run.
  assert (js_not (Some t) = false) as Hjs by (apply js_not_false; eauto).
  destruct c as [soql | obj data | obj id data | obj id | obj id fields];
    cbn [run_call call_verb call_data call_label option_map];
    unfold forget, query, create, update, SalesforceRestClient.delete,
      retrieve, rest_bind;
    rewrite getHeaders_run; cbn [fst snd]; rewrite Hget, Hjs;
    cbn [default]; unfold SalesforceRestClient.fetch; cbn [fst snd].
  all: try destruct fields as [fields |].
  all: lazymatch goal with |- context [rest_fetch ?r] => exists r end.
  all: eexists; split; [| split; [| split; [| split; [| split]]]];
    try reflexivity.
  all: destruct (rest_fetch _) as [resp |]; [destruct (rest_ok resp) |];
    reflexivity.
Qed.

End RestCalls.

Lemma rest_call_without_token_witness :
  SampleRest.run (SalesforceRestClient.Query "SELECT Id FROM Account")
                 (empty_world, [])
  = (SalesforceRestClient.Failed
       (SalesforceRestClient.Propagated (SalesforceAuthError not_authenticated)),
     (empty_world, [])).
Proof.
  refine (rest_call_without_token string string _ _ _ _ _ _
            empty_world empty_world None [] _ _).
  - reflexivity.
  - now left.
Defined.

Lemma rest_call_with_token_witness :
  let w := Sample.signed_in Sample.web_client in
  let c := SalesforceRestClient.Update "Account" "001" "{}" in
  exists r path,
    snd (SampleRest.run c (w, [])) = (w, [r]) /\
    SalesforceRestClient.rest_headers r
      = [("Authorization", "Bearer AT1"); ("Content-Type", "application/json")] /\
    SalesforceRestClient.rest_verb r = SalesforceRestClient.M_PATCH /\
    SalesforceRestClient.rest_body r = Some "{}" /\
    SalesforceRestClient.rest_url r
      = "https://eu1.example.org/services/data/v59.0" +:+ path /\
    fst (SampleRest.run c (w, [])) = SalesforceRestClient.Resolved None.
Proof.
  intros w c.
  refine (rest_call_with_token string string (fun data => data) (fun s => s)
            SampleRest.config SampleRest.getAccessToken SampleRest.instance
            c w w "AT1" [] _ _).
  - vm_compute. reflexivity.
  - discriminate.
Defined.

(* ===================================================================== *)
(** * Two more compositions *)
(* ===================================================================== *)

Lemma legacy_entry_setItem `{L : Libraries} (appId key value : string)
    (w : world) :
  sessionStorage (after (setItem (NewBrowserStorage appId) key value) w)
    !! BrowserStorage.getKey appId None
  = sessionStorage w !! BrowserStorage.getKey appId None.
Proof.
  unfold after, setItem. rewrite BrowserStorage_setItem_run. cbn.
  destruct (String.eqb key _); cbn; [| reflexivity].
  apply lookup_insert_ne, getKey_legacy_neq.
Qed.

Lemma legacy_entry_removeItem (appId key : string) (w : world) :
  sessionStorage (after (removeItem (NewBrowserStorage appId) key) w)
    !! BrowserStorage.getKey appId None
  = sessionStorage w !! BrowserStorage.getKey appId None.
Proof.
  unfold after, removeItem. rewrite BrowserStorage_removeItem_run. cbn.
  destruct (String.eqb key _); cbn; [| reflexivity].
  apply lookup_delete_ne, getKey_legacy_neq.
Qed.

Lemma stored_signInSession `{L : Libraries} (appId : string) (w : world) :
  stored (NewBrowserStorage appId) "signInSession" w
  = nullish
      (sessionStorage w !! BrowserStorage.getKey appId (Some "signInSession"))
      (sessionStorage w !! BrowserStorage.getKey appId None).
Proof. now rewrite stored_browser. Qed.

(** X18.  The browser store never writes or deletes the entry under its
    old un-suffixed key: any sequence of store calls leaves it as it was.
    So while such an entry exists, [getItem("signInSession")] never
    resolves with null, whatever has been removed through the store. *)
Theorem BrowserStorage_legacy_entry_stays `{L : Libraries} (appId : string)
    (ops : list store_op) (w : world) (old : string) :
  let s := NewBrowserStorage appId in
  let w' := after (run_ops s ops) w in
  sessionStorage w !! BrowserStorage.getKey appId None = Some old ->
  sessionStorage w' !! BrowserStorage.getKey appId None = Some old /\
  result (getItem s "signInSession") w' <> Return None /\
  result (getItem s "signInSession")
         (after (removeItem s "signInSession") w') = Return (Some old).
Proof.
  cbn zeta. intros Hold.
  assert (sessionStorage (after (run_ops (NewBrowserStorage appId) ops) w)
            !! BrowserStorage.getKey appId None = Some old) as Hstays.
  { revert w Hold. induction ops as [| op ops IH]; intros w Hold; [exact Hold |].
    rewrite run_ops_cons. apply IH.
    destruct op as [k v | k | k]; [| | exact Hold].
    - now rewrite legacy_entry_setItem.
    - now rewrite legacy_entry_removeItem. }
  split; [exact Hstays |]. rewrite !getItem_result, !stored_signInSession.
  split.
  - rewrite Hstays.
    destruct (sessionStorage _
                !! BrowserStorage.getKey appId (Some "signInSession"));
      cbn [nullish]; intros Heq; inversion Heq.
  - f_equal. rewrite legacy_entry_removeItem, Hstays.
    unfold after, removeItem. rewrite BrowserStorage_removeItem_run.
    cbn [snd String.eqb Ascii.eqb Bool.eqb sessionStorage set_sessionStorage].
    now rewrite lookup_delete_eq.
Qed.

Lemma BrowserStorage_legacy_entry_stays_witness :
  let s := NewBrowserStorage "C1" in
  let w' := after (run_ops (L := Sample.libs) s
                     [SetItem "signInSession" "nonce";
                      RemoveItem "signInSession"]) Sample.legacy_world in
  sessionStorage w' !! BrowserStorage.getKey "C1" None = Some "old-session" /\
  result (getItem (L := Sample.libs) s "signInSession") w' <> Return None /\
  result (getItem (L := Sample.libs) s "signInSession")
         (after (removeItem s "signInSession") w')
    = Return (Some "old-session").
Proof.
  refine (BrowserStorage_legacy_entry_stays (L := Sample.libs) "C1" _
            Sample.legacy_world "old-session" _).
  vm_compute. reflexivity.
Defined.

(** X19.  Signing in and then out: after a [signIn] that resolved on a
    token response with a non-empty access token, [signOut] sends one
    request, the revocation of exactly that token, and once it is answered
    (whatever the status) it resolves and the store holds neither an
    access nor a refresh token. *)
Theorem signIn_then_signOut `{L : Libraries} `{Lok : !LibrariesOk L}
    (env env' : environment) (this : SalesforceAuthClient) (w : world) :
  let w1 := after (signIn env this) w in
  let w2 := after (signOut env' this) w1 in
  issues_tokens env ->
  result (signIn env this) w = Return tt ->
  exists r data,
    fetch_token env r = Response true data /\
    network w2 = (network w1 ++ [revoke_request this (access_token data)])%list /\
    (fetch_revoke env' (revoke_request this (access_token data)) <> Rejected ->
     result (signOut env' this) w1 = Return tt /\
     result (getItem (storage this) "accessToken") w2 = Return None /\
     result (getItem (storage this) "refreshToken") w2 = Return None).
Proof.
  cbn zeta. intros Hissues Hres.
  destruct (signIn_resolved_token env this w Hres)
    as (r & data & Hresp & Haccess).
  exists r, data. split; [exact Hresp |].
  destruct (signOut_truthy_token env' this (after (signIn env this) w)
              (access_token data) Haccess (Hissues r data Hresp))
    as [Hnet Hout].
  split; [exact Hnet |]. intros Hanswered.
  destruct (fetch_revoke env' _); [contradiction |].
  destruct Hout as (Hr & Ha & Hrf). rewrite !getItem_result.
  now rewrite Ha, Hrf.
Qed.

Lemma signIn_then_signOut_witness :
  let this := Sample.native_client in
  let w1 := Sample.signed_in this in
  let w2 := after (signOut (L := Sample.libs) Sample.happy this) w1 in
  exists r data,
    fetch_token Sample.happy r = Response true data /\
    network w2 = (network w1 ++ [revoke_request this (access_token data)])%list /\
    (fetch_revoke Sample.happy (revoke_request this (access_token data))
       <> Rejected ->
     result (signOut (L := Sample.libs) Sample.happy this) w1 = Return tt /\
     result (getItem (L := Sample.libs) (storage this) "accessToken") w2
       = Return None /\
     result (getItem (L := Sample.libs) (storage this) "refreshToken") w2
       = Return None).
Proof.
  refine (signIn_then_signOut (L := Sample.libs) (Lok := Sample_libs_ok)
            Sample.happy Sample.happy Sample.native_client empty_world _ _).
  - exact Sample_happy_issues_tokens.
  - vm_compute. reflexivity.
Defined.
